(** * The Deduplicate task of pipeline.py, embedded in Rocq

    The task streams the records of one WARC container through
    [Deduplicate.process]: every record's target URI is unwrapped from
    angle brackets, a [response] record whose payload digest is already in
    the [digests] dictionary is replaced by a [revisit] record, and a
    [warcinfo] record gets the output file's name.

    Conventions of the embedding:
    - a Python [str] is a [string]; a character of [ascii] stands for the
      code point of the same number (0..255);
    - a Python value that is a [str] or [None] is an [option string];
    - the record headers are warcio's [StatusAndHeaders.headers]: a list of
      (name, value) pairs, looked up without regard to case; the calls of
      the warcio library that the task makes are modelled by what the
      library does ([Module Warcio]);
    - an uncaught exception is the [Raise] result;
    - the output of a pass is the sequence of records that
      [writer.write_record] wrote, in the order of the calls. *)

From Stdlib Require Import Ascii.
From stdpp Require Import gmap strings list.

Local Open Scope string_scope.

(** ** Python strings *)

Module Py.

(** [str.lower] on the code points 0..255: A-Z and the Latin-1 capitals
    (0xC0..0xDE without the multiplication sign 0xD7) move up by 32. *)
Definition lower_char (c : ascii) : ascii :=
  let n := Ascii.N_of_ascii c in
  if ((65 <=? n) && (n <=? 90) ||
      (192 <=? n) && (n <=? 222) && negb (n =? 215))%N
  then Ascii.ascii_of_N (n + 32)
  else c.

Fixpoint lower (s : string) : string :=
  match s with
  | EmptyString => EmptyString
  | String c t => String (lower_char c) (lower t)
  end.

(** [s.startswith('<')] *)
Definition startswith_lt (s : string) : bool :=
  match s with
  | String "<"%char _ => true
  | _ => false
  end.

Definition is_newline (c : ascii) : bool := Ascii.eqb c "010"%char.

(** *** The regular expression [^<(.+)>$]

    [re.search] without flags: [^] only matches at position 0, [.] matches
    every character but the newline, [$] matches at the end of the string
    and just before a newline that ends the string.  The matcher below is
    the backtracking matcher specialised to this pattern; each function
    returns what group 1 still has to take up from its position. *)

(** [$] at the position where [s] is what remains. *)
Definition at_dollar (s : string) : bool :=
  match s with
  | EmptyString => true
  | String c EmptyString => is_newline c
  | _ => false
  end.

(** [>$] *)
Definition match_tail (s : string) : bool :=
  match s with
  | String ">"%char t => at_dollar t
  | _ => false
  end.

(** The greedy [.*] that ends [.+], followed by [>$]: take a character
    first, and give it back when the rest does not match. *)
Fixpoint dot_star (s : string) : option string :=
  match s with
  | EmptyString => None
  | String c t =>
      if is_newline c then (if match_tail s then Some EmptyString else None)
      else match dot_star t with
           | Some g => Some (String c g)
           | None => if match_tail s then Some EmptyString else None
           end
  end.

(** [(.+)>$] *)
Definition dot_plus (s : string) : option string :=
  match s with
  | EmptyString => None
  | String c t => if is_newline c then None else String c <$> dot_star t
  end.

(** [re.search('^<(.+)>$', url)] followed by [.group(1)] on a match;
    [None] is the [None] that [re.search] returns. *)
Definition re_search_group1 (url : string) : option string :=
  match url with
  | String "<"%char t => dot_plus t
  | _ => None
  end.

(** No character of [s] is a newline: [.+] can run over all of [s]. *)
Fixpoint no_newline (s : string) : bool :=
  match s with
  | EmptyString => true
  | String c t => negb (is_newline c) && no_newline t
  end.

End Py.

(** ** Exceptions *)

Inductive exn : Type :=
| AttributeError
| TypeError.

Inductive result (A : Type) : Type :=
| Ok (a : A)
| Raise (e : exn).
Arguments Ok {A} a.
Arguments Raise {A} e.

#[global] Instance result_bind : MBind result := fun A B k r =>
  match r with
  | Ok a => k a
  | Raise e => Raise e
  end.

(** ** warcio's [StatusAndHeaders]

    The operations of the header object that the task calls.  A value is
    a [str], or [None] when [replace_header] was given [None]. *)

Module Warcio.

Definition header : Type := string * option string.
Definition headers : Type := list header.

Definition name_is (name_lower : string) (hd : header) : bool :=
  String.eqb (Py.lower hd.1) name_lower.

(** [get_header(name)]: the value of the first header of that name, or
    the default [None]. *)
Definition get_header (name : string) (h : headers) : option string :=
  match find (name_is (Py.lower name)) h with
  | Some hd => hd.2
  | None => None
  end.

(** The loop of [replace_header] runs over the indices from the last to
    the first and stops at the first header of that name it meets: the
    last one of the list.  [None] when no header has the name. *)
Fixpoint replace_last (name_lower : string) (value : option string)
    (h : headers) : option headers :=
  match h with
  | [] => None
  | hd :: t =>
      match replace_last name_lower value t with
      | Some t' => Some (hd :: t')
      | None => if name_is name_lower hd then Some ((hd.1, value) :: t)
                else None
      end
  end.

(** [replace_header(name, value)]: the header found keeps the spelling
    of its name; without one, [(name, value)] is appended. *)
Definition replace_header (name : string) (value : option string)
    (h : headers) : headers :=
  match replace_last (Py.lower name) value h with
  | Some h' => h'
  | None => (h ++ [(name, value)])%list
  end.

(** [remove_header(name)]: the same loop, deleting the header found. *)
Fixpoint remove_last (name_lower : string) (h : headers) : option headers :=
  match h with
  | [] => None
  | hd :: t =>
      match remove_last name_lower t with
      | Some t' => Some (hd :: t')
      | None => if name_is name_lower hd then Some t else None
      end
  end.

Definition remove_header (name : string) (h : headers) : headers :=
  match remove_last (Py.lower name) h with
  | Some h' => h'
  | None => h
  end.

(** How many headers of [h] have the name. *)
Fixpoint count_name (name_lower : string) (h : headers) : nat :=
  match h with
  | [] => 0
  | hd :: t => (if name_is name_lower hd then 1 else 0) + count_name name_lower t
  end.

Definition count_header (name : string) (h : headers) : nat :=
  count_name (Py.lower name) h.

(** An [ArcWarcRecord]: the type the parser or the writer gave it, the
    WARC headers, the HTTP headers block and the payload stream. *)
Record ArcWarcRecord : Type := mkRecord {
  rec_type : option string;
  rec_headers : headers;
  http_headers : option headers;
  raw_stream : string
}.

Definition with_headers (record : ArcWarcRecord) (h : headers) : ArcWarcRecord :=
  {| rec_type := rec_type record;
     rec_headers := h;
     http_headers := http_headers record;
     raw_stream := raw_stream record |}.

(** [WARCWriter.create_warc_record(uri, record_type, warc_headers=...,
    http_headers=...)] as the task calls it: without a payload the record
    gets an empty stream, and the WARC headers it is given are used as
    they are ([uri] only serves when the writer makes the headers). *)
Definition create_warc_record (uri : option string) (record_type : string)
    (warc_headers : headers) (http : option headers) : ArcWarcRecord :=
  {| rec_type := Some record_type;
     rec_headers := warc_headers;
     http_headers := http;
     raw_stream := EmptyString |}.

(** Every value of the headers is a string. *)
Definition all_str (h : headers) : bool :=
  forallb (fun hd : header => match hd.2 with Some _ => true | None => false end) h.

(** [WARCWriter.write_record(record)], as far as the records of the
    task can make it raise: the writer joins the name and the value of
    each header of the record, of its WARC headers and of its HTTP
    headers, with [': '.join], which raises TypeError on a value that is
    [None]. *)
Definition write_record (record : ArcWarcRecord) : result unit :=
  if all_str (rec_headers record)
     && match http_headers record with
        | Some h => all_str h
        | None => true
        end
  then Ok tt
  else Raise TypeError.

End Warcio.

Import Warcio.

(** ** The task *)

Module Deduplicate.

(** The two keys of the item that [process] reads. *)
Record Item : Type := mkItem {
  item_dir : string;
  warc_file_base : string
}.

Definition input_filename (item : Item) : string :=
  item_dir item ++ "/" ++ warc_file_base item ++ ".warc.gz".

Definition output_filename (item : Item) : string :=
  item_dir item ++ "/" ++ warc_file_base item ++ "-deduplicated.warc.gz".

(** A value of [digests]: (WARC-Record-ID, WARC-Date, WARC-Target-URI). *)
Definition entry : Type := option string * option string * option string.

(** The keys of [digests] are what [get_header] returns: a digest, or
    [None] for a record without the header. *)
Abbreviation index := (gmap (option string) entry).

Definition profile : string :=
  "http://netpreserve.org/warc/1.0/revisit/identical-payload-digest".

Definition _record_response_to_revisit (record : ArcWarcRecord)
    (duplicate : entry) : ArcWarcRecord :=
  let warc_headers := rec_headers record in
  let warc_headers := replace_header "WARC-Refers-To" duplicate.1.1 warc_headers in
  let warc_headers := replace_header "WARC-Refers-To-Date" duplicate.1.2 warc_headers in
  let warc_headers := replace_header "WARC-Refers-To-Target-URI" duplicate.2 warc_headers in
  let warc_headers := replace_header "WARC-Type" (Some "revisit") warc_headers in
  let warc_headers := replace_header "WARC-Truncated" (Some "length") warc_headers in
  let warc_headers := replace_header "WARC-Profile" (Some profile) warc_headers in
  let warc_headers := remove_header "WARC-Block-Digest" warc_headers in
  let warc_headers := remove_header "Content-Length" warc_headers in
  create_warc_record (get_header "WARC-Target-URI" warc_headers) "revisit"
    warc_headers (http_headers record).

(** Lines 209-210 on the value of the header: [url] is unwrapped when it
    is there and starts with [<]; [.group(1)] on the [None] of a failed
    search raises [AttributeError]. *)
Definition unwrap (url : option string) : result (option string) :=
  match url with
  | Some u =>
      if Py.startswith_lt u then
        match Py.re_search_group1 u with
        | Some g => Ok (Some g)
        | None => Raise AttributeError
        end
      else Ok url
  | None => Ok None
  end.

(** Lines 207-211 on the record: the header is replaced only inside the
    [if]. *)
Definition unwrap_target_uri (record : ArcWarcRecord) : result ArcWarcRecord :=
  let url := get_header "WARC-Target-URI" (rec_headers record) in
  match url with
  | Some u =>
      if Py.startswith_lt u then
        url' ← unwrap url;
        Ok (with_headers record
              (replace_header "WARC-Target-URI" url' (rec_headers record)))
      else Ok record
  | None => Ok record
  end.

(** The entry that a first occurrence leaves in [digests]. *)
Definition entry_of (record : ArcWarcRecord) : entry :=
  (get_header "WARC-Record-ID" (rec_headers record),
   get_header "WARC-Date" (rec_headers record),
   get_header "WARC-Target-URI" (rec_headers record)).

(** The body of the [for] loop: the dictionary after the record and the
    record handed to [writer.write_record]. *)
Definition process_record (item : Item) (digests : index)
    (record : ArcWarcRecord) : result (index * ArcWarcRecord) :=
  record ← unwrap_target_uri record;
  if decide (get_header "WARC-Type" (rec_headers record) = Some "response") then
    let digest := get_header "WARC-Payload-Digest" (rec_headers record) in
    match digests !! digest with
    | Some duplicate =>
        Ok (digests, _record_response_to_revisit record duplicate)
    | None => Ok (<[digest := entry_of record]> digests, record)
    end
  else if decide (get_header "WARC-Type" (rec_headers record) = Some "warcinfo") then
    Ok (digests,
        with_headers record
          (replace_header "WARC-Filename" (Some (output_filename item))
             (rec_headers record)))
  else Ok (digests, record).

(** A whole turn of the loop: the body and its call of
    [writer.write_record] on the record that the body hands over. *)
Definition process_turn (item : Item) (digests : index)
    (record : ArcWarcRecord) : result (index * ArcWarcRecord) :=
  turn ← process_record item digests record;
  _ ← write_record turn.2;
  Ok turn.

(** What a pass leaves behind: the records written so far, the
    dictionary, and the exception that ended the pass, if any.  The
    dictionary is a local of the method and is lost with an exception:
    the dictionary of a pass that raised is the one that the last turn
    that wrote its record left.  (Line 223 enters a first occurrence
    before line 228 writes it; the writer refuses no record that it takes
    as read, so that on the records that the reader yields the turn that
    raises has not changed the dictionary.) *)
Record pass : Type := mkPass {
  written : list ArcWarcRecord;
  digests_of : index;
  raised : option exn
}.

(** The [for] loop over the records of the input, from [digests]. *)
Fixpoint process_from (item : Item) (digests : index)
    (records : list ArcWarcRecord) : pass :=
  match records with
  | [] => mkPass [] digests None
  | record :: rest =>
      match process_turn item digests record with
      | Raise e => mkPass [] digests (Some e)
      | Ok (digests', out) =>
          let p := process_from item digests' rest in
          mkPass (out :: written p) (digests_of p) (raised p)
      end
  end.

(** [process(item)] on the records that [ArchiveIterator] yields. *)
Definition process (item : Item) (records : list ArcWarcRecord) : pass :=
  process_from item ∅ records.

End Deduplicate.

Import Deduplicate.

(** ** The vocabulary of the properties *)

Module Props.

(** The test of line 213. *)
Definition is_response (record : ArcWarcRecord) : Prop :=
  get_header "WARC-Type" (rec_headers record) = Some "response".

(** The key under which line 214 looks the record up. *)
Definition payload_digest (record : ArcWarcRecord) : option string :=
  get_header "WARC-Payload-Digest" (rec_headers record).

Definition is_response_with (k : option string) (record : ArcWarcRecord) : Prop :=
  is_response record /\ payload_digest record = k.

#[global] Instance is_response_with_dec k record :
  Decision (is_response_with k record).
Proof. unfold is_response_with, is_response. apply _. Defined.

(** A target URI that starts with [<] and that the pattern rejects. *)
Definition malformed_target_uri (record : ArcWarcRecord) : Prop :=
  exists url,
    get_header "WARC-Target-URI" (rec_headers record) = Some url /\
    Py.startswith_lt url = true /\
    Py.re_search_group1 url = None.

(** The reader gives a WARC record the type that its header names. *)
Definition parsed (record : ArcWarcRecord) : Prop :=
  rec_type record = get_header "WARC-Type" (rec_headers record).

(** The records read paired with the records written for them. *)
Definition exchanged_from (item : Item) (digests : index)
    (records : list ArcWarcRecord) : list (ArcWarcRecord * ArcWarcRecord) :=
  zip records (written (process_from item digests records)).

Definition exchanged (item : Item) (records : list ArcWarcRecord)
    : list (ArcWarcRecord * ArcWarcRecord) :=
  exchanged_from item ∅ records.

(** The pairs of the response records that carry the digest [k], in file
    order. *)
Definition exchanged_for (item : Item) (k : option string)
    (records : list ArcWarcRecord) : list (ArcWarcRecord * ArcWarcRecord) :=
  filter (fun p => is_response_with k p.1) (exchanged item records).

(** [p.2] is the revisit record made from [p.1] and the entry [e]. *)
Definition converted (e : entry) (p : ArcWarcRecord * ArcWarcRecord) : Prop :=
  exists u, unwrap_target_uri p.1 = Ok u /\
            p.2 = _record_response_to_revisit u e.

(** The first pair is a record written as it was read, but for the
    unwrapping, and every later pair is a conversion that refers to it. *)
Definition retained_then_converted
    (pairs : list (ArcWarcRecord * ArcWarcRecord)) : Prop :=
  match pairs with
  | [] => True
  | (rf, first) :: rest =>
      unwrap_target_uri rf = Ok first /\
      Forall (converted (entry_of first)) rest
  end.

Definition count_type (t : string) (l : list ArcWarcRecord) : nat :=
  length (filter (fun w => rec_type w = Some t) l).

(** The headers that [_record_response_to_revisit] replaces or removes. *)
Definition revisit_fields : list string :=
  ["WARC-Refers-To"; "WARC-Refers-To-Date"; "WARC-Refers-To-Target-URI";
   "WARC-Type"; "WARC-Truncated"; "WARC-Profile";
   "WARC-Block-Digest"; "Content-Length"].

(** None of the [names] occurs twice among the headers. *)
Definition unrepeated (names : list string) (h : headers) : Prop :=
  Forall (fun name => count_header name h <= 1) names.

(** Lines 209-210 applied twice. *)
Definition unwrap_twice (url : option string) : result (option string) :=
  once ← unwrap url; unwrap once.

End Props.

Import Props.

(** ** Sample records *)

Module Samples.

Definition item : Item := mkItem "data/abc" "sketch-abc-20190622".

Definition response (id date uri : string) (digest : option string)
    : ArcWarcRecord :=
  mkRecord (Some "response")
    ([("WARC-Type", Some "response");
      ("WARC-Record-ID", Some id);
      ("WARC-Date", Some date);
      ("WARC-Target-URI", Some uri)] ++
     match digest with
     | Some d => [("WARC-Payload-Digest", Some d)]
     | None => []
     end ++
     [("WARC-Block-Digest", Some "sha1:BLOCK");
      ("Content-Length", Some "120")])%list
    (Some [("Content-Type", Some "text/html")])
    "payload bytes".

Definition warcinfo (fname : string) (uri : option string) : ArcWarcRecord :=
  mkRecord (Some "warcinfo")
    ([("WARC-Type", Some "warcinfo");
      ("WARC-Filename", Some fname)] ++
     match uri with
     | Some u => [("WARC-Target-URI", Some u)]
     | None => []
     end)%list
    None
    "software: Wget".

Definition r1 := response "<urn:uuid:1>" "2019-06-22T01:00:00Z" "<http://u1/>" (Some "sha1:A").
Definition r2 := response "<urn:uuid:2>" "2019-06-22T02:00:00Z" "<http://u2/>" (Some "sha1:B").
Definition r3 := response "<urn:uuid:3>" "2019-06-22T03:00:00Z" "<http://u3/>" (Some "sha1:A").

(** The third record with a target URI that opens a bracket and does
    not close it. *)
Definition r3_open := response "<urn:uuid:3>" "2019-06-22T03:00:00Z" "<http://u3/" (Some "sha1:A").

(** The third record with its Content-Length written twice. *)
Definition r3_twice : ArcWarcRecord :=
  with_headers r3 (rec_headers r3 ++ [("Content-Length", Some "120")])%list.

(** Two response records without a payload digest. *)
Definition n1 := response "<urn:uuid:4>" "2019-06-22T04:00:00Z" "<http://u4/>" None.
Definition n2 := response "<urn:uuid:5>" "2019-06-22T05:00:00Z" "<http://u5/>" None.

(** The scenario of two distinct digests and a repeat, and the record
    that the pass writes at a position of it. *)
Definition aba : list ArcWarcRecord := [r1; r2; r3].

Definition aba_written (i : nat) : ArcWarcRecord :=
  default r1 (written (process item aba) !! i).

(** The first record without its WARC-Date header. *)
Definition r1_undated : ArcWarcRecord :=
  with_headers r1 (remove_header "WARC-Date" (rec_headers r1)).

Definition info := warcinfo "sketch-abc-20190622.warc.gz" None.
Definition info_uri := warcinfo "sketch-abc-20190622.warc.gz" (Some "<urn:x>").

End Samples.

(** ** More vocabulary for the Deduplicate task *)

Module More.

#[global] Instance is_response_dec record : Decision (is_response record).
Proof. unfold is_response. apply _. Defined.

(** The string of one newline. *)
Definition newline : string := String "010"%char EmptyString.

(** The digests under which the response records of the list are looked
    up, in file order. *)
Definition response_digests (records : list ArcWarcRecord)
    : list (option string) :=
  payload_digest <$> filter is_response records.

(** The test of line 230, on the record read. *)
Definition is_warcinfo (record : ArcWarcRecord) : Prop :=
  get_header "WARC-Type" (rec_headers record) = Some "warcinfo".

#[global] Instance is_warcinfo_dec record : Decision (is_warcinfo record).
Proof. unfold is_warcinfo. apply _. Defined.

(** The three values of an entry are strings: lines 239-241 then give
    every WARC-Refers-To header of a revisit record a string. *)
Definition full (e : entry) : Prop :=
  is_Some e.1.1 /\ is_Some e.1.2 /\ is_Some e.2.

(** The writer takes the record as it was read: every value of its
    headers is a string, as in the records that the reader yields. *)
Definition writable (record : ArcWarcRecord) : Prop :=
  write_record record = Ok tt.

(** An input on which no turn of the loop raises: no record has a
    target URI that the pattern rejects, and for a response record that
    follows response records with its digest, the first of them has the
    WARC-Record-ID, the WARC-Date and the WARC-Target-URI that the revisit
    record refers to. *)
Definition passable (records : list ArcWarcRecord) : Prop :=
  forall i record, records !! i = Some record ->
    ~ malformed_target_uri record /\
    (is_response record ->
     forall first,
       head (filter (is_response_with (payload_digest record)) (take i records))
         = Some first ->
       full (entry_of first)).

(** A record on which no turn of the loop raises, whatever records of
    this kind stand before it: the writer takes its headers as they were
    read, the pattern does not reject its target URI, and, when it is a
    response record, it has the WARC-Record-ID, the WARC-Date and the
    WARC-Target-URI that an entry of the dictionary is made of. *)
Definition acceptable (record : ArcWarcRecord) : Prop :=
  write_record record = Ok tt /\
  ~ malformed_target_uri record /\
  (is_response record -> full (entry_of record)).

End More.

Import More.

(** ** The item and its interpolations

    A seesaw item is used as a dictionary from keys to strings.  The
    templates of the pipeline only hold [%(key)s] directives: a template
    is the list of its texts and keys, and [template % item] raises
    KeyError at the first key that the item does not have. *)

Module Seesaw.

Abbreviation item_dict := (gmap string string).

Inductive piece : Type :=
| Text (s : string)
| Key (k : string).

(** The calls on the file system that a task makes: [shutil.rmtree],
    [os.makedirs], [open(path, 'w').close()] and [os.rename]. *)
Inductive fs_call : Type :=
| rmtree (path : string)
| makedirs (path : string)
| create (path : string)
| rename (src dst : string).

#[global] Instance fs_call_eq_dec : EqDecision fs_call.
Proof. solve_decision. Defined.

(** The exceptions of the tasks other than Deduplicate.  [OSError c] is
    the exception with which the call [c] on the file system fails:
    OSError or one of its subclasses, as FileNotFoundError. *)
Inductive error : Type :=
| KeyError (k : string)
| ValueError
| HTTPError
| gaierror (host : string)
| Exception (message : string)
| OSError (c : fs_call).

Fixpoint interpolate (template : list piece) (item : item_dict)
    : error + string :=
  match template with
  | [] => inr EmptyString
  | Text s :: rest =>
      match interpolate rest item with
      | inr tail => inr (s ++ tail)
      | inl e => inl e
      end
  | Key k :: rest =>
      match item !! k with
      | None => inl (KeyError k)
      | Some v =>
          match interpolate rest item with
          | inr tail => inr (v ++ tail)
          | inl e => inl e
          end
      end
  end.

(** An element of an argument list: a string, or an
    [ItemInterpolation] that [realize] resolves against the item. *)
Inductive arg : Type :=
| Plain (s : string)
| ItemInterpolation (template : list piece).

Definition realize_arg (item : item_dict) (a : arg) : error + string :=
  match a with
  | Plain s => inr s
  | ItemInterpolation template => interpolate template item
  end.

(** [realize(args, item)] on a list: element by element. *)
Fixpoint realize (args : list arg) (item : item_dict) : error + list string :=
  match args with
  | [] => inr []
  | a :: rest =>
      match realize_arg item a with
      | inl e => inl e
      | inr s =>
          match realize rest item with
          | inl e => inl e
          | inr tail => inr (s :: tail)
          end
      end
  end.

(** The file system as a task meets it: whether a call raises, after
    the calls that have returned before it. *)
Definition file_system : Type := list fs_call -> fs_call -> bool.

(** A computation that calls the file system and returns or raises:
    from the calls that have returned so far, in order, to the calls that
    have returned after it and its result. *)
Definition io (A : Type) : Type := list fs_call -> list fs_call * (error + A).

#[global] Instance io_ret : MRet io := fun A a calls => (calls, inr a).

#[global] Instance io_bind : MBind io := fun A B k m calls =>
  match m calls with
  | (calls', inr a) => k a calls'
  | (calls', inl e) => (calls', inl e)
  end.

(** A call returns and has its effect, or raises. *)
Definition call (raises : file_system) (c : fs_call) : io unit :=
  fun calls =>
    if raises calls c then (calls, inl (OSError c))
    else ((calls ++ [c])%list, inr tt).

Definition raise {A} (e : error) : io A := fun calls => (calls, inl e).

Definition lift {A} (r : error + A) : io A := fun calls => (calls, r).

(** The calls that returned and the result of a computation run on its
    own. *)
Definition run {A} (m : io A) : list fs_call * (error + A) := m [].

End Seesaw.

Import Seesaw.

(** ** CheckIP *)

Module CheckIP.

Definition hosts : list string :=
  ["twitter.com"; "facebook.com"; "youtube.com"; "microsoft.com";
   "icanhas.cheezburger.com"; "archiveteam.org"].

Definition no_no : string :=
  "Are you behind a firewall/proxy? That is a big no-no!".

(** What [item.log_output] is given. *)
Inductive log_line : Type :=
| Line (s : string)
| GotIPAddresses (ip_set : gset string).

(** [ip_set.add(socket.gethostbyname(host))] for the hosts in order;
    [gethostbyname] answers [None] when the lookup raises. *)
Fixpoint add_all (gethostbyname : string -> option string)
    (names : list string) (ip_set : gset string) : error + gset string :=
  match names with
  | [] => inr ip_set
  | host :: rest =>
      match gethostbyname host with
      | None => inl (gaierror host)
      | Some ip => add_all gethostbyname rest (ip_set ∪ {[ip]})
      end
  end.

(** One call of [process]: the counter after it, the lines logged and
    the exception raised, if any.  [__init__] sets the counter to 0. *)
Record outcome : Type := mkOutcome {
  counter : Z;
  logged : list log_line;
  failure : option error
}.

Definition init_counter : Z := 0.

Definition process (gethostbyname : string -> option string) (_counter : Z)
    : outcome :=
  let checked : list log_line * option error :=
    if decide (_counter <= 0)%Z then
      match add_all gethostbyname hosts ∅ with
      | inl e => ([Line "Checking IP address."], Some e)
      | inr ip_set =>
          if decide (size ip_set <> 6) then
            ([Line "Checking IP address."; GotIPAddresses ip_set; Line no_no],
             Some (Exception no_no))
          else ([Line "Checking IP address."], None)
      end
    else ([], None) in
  match checked.2 with
  | Some e => mkOutcome _counter checked.1 (Some e)
  | None =>
      if decide (_counter <= 0)%Z then mkOutcome 10 checked.1 None
      else mkOutcome (_counter - 1) checked.1 None
  end.

(** The calls of [process] for one item after the other on the same
    task object: the counter is carried from call to call, also past a
    call that raised. *)
Fixpoint calls (resolvers : list (string -> option string)) (_counter : Z)
    : list outcome :=
  match resolvers with
  | [] => []
  | gethostbyname :: rest =>
      let o := process gethostbyname _counter in
      o :: calls rest (counter o)
  end.

(** The counter after the calls. *)
Definition counter_after (resolvers : list (string -> option string))
    (_counter : Z) : Z :=
  foldl (fun c gethostbyname => counter (process gethostbyname c))
    _counter resolvers.

End CheckIP.

(** ** WgetArgs *)

Module WgetArgs.

(** [s.split(':', 1)]: the text before the first colon and, when there
    is a colon, the text after it. *)
Fixpoint split_colon (s : string) : string * option string :=
  match s with
  | EmptyString => (EmptyString, None)
  | String c t =>
      if Ascii.eqb c ":"%char then (EmptyString, Some t)
      else let p := split_colon t in (String c p.1, p.2)
  end.

(** No character of [s] is a colon. *)
Fixpoint no_colon (s : string) : bool :=
  match s with
  | EmptyString => true
  | String c t => negb (Ascii.eqb c ":"%char) && no_colon t
  end.

Definition VERSION : string := "20190622.01".

(** The list [wget_args] of [realize], for the executable and the user
    agent that the module found when it was loaded. *)
Definition wget_args (WGET_LUA USER_AGENT : string) : list arg :=
  [Plain WGET_LUA;
   Plain "-U"; Plain USER_AGENT;
   Plain "-nv";
   Plain "--no-cookies";
   Plain "--lua-script"; Plain "sketch.lua";
   Plain "-o"; ItemInterpolation [Key "item_dir"; Text "/wget.log"];
   Plain "--no-check-certificate";
   Plain "--output-document"; ItemInterpolation [Key "item_dir"; Text "/wget.tmp"];
   Plain "--truncate-output";
   Plain "-e"; Plain "robots=off";
   Plain "--rotate-dns";
   Plain "--recursive"; Plain "--level=inf";
   Plain "--no-parent";
   Plain "--page-requisites";
   Plain "--timeout"; Plain "30";
   Plain "--tries"; Plain "inf";
   Plain "--domains"; Plain "sketch.sonymobile.com";
   Plain "--span-hosts";
   Plain "--waitretry"; Plain "30";
   Plain "--warc-file";
   ItemInterpolation [Key "item_dir"; Text "/"; Key "warc_file_base"];
   Plain "--warc-header"; Plain "operator: Archive Team";
   Plain "--warc-header"; Plain ("sketch-dld-script-version: " ++ VERSION);
   Plain "--warc-header";
   ItemInterpolation [Text "sketch-item: "; Key "item_name"]].

(** What a call of [realize] leaves: the item, the URLs fetched, the
    lines printed, and the list returned or the exception raised. *)
Record outcome : Type := mkOutcome {
  item_after : item_dict;
  fetched : list string;
  printed : list string;
  returned : error + list string
}.

(** [realize(item)].  [fetch] answers [None] when the HTTP client
    raises; the lines of the body it answers are read and dropped.
    [bind_address] is the global of that name, if there is one. *)
Definition realize (WGET_LUA USER_AGENT : string)
    (bind_address : option string) (fetch : string -> option string)
    (item : item_dict) : outcome :=
  match item !! "item_name" with
  | None => mkOutcome item [] [] (inl (KeyError "item_name"))
  | Some item_name =>
      match split_colon item_name with
      | (_, None) => mkOutcome item [] [] (inl ValueError)
      | (item_type, Some item_value) =>
          let item := <["item_value" := item_value]>
                        (<["item_type" := item_type]> item) in
          if decide (item_type = "disco") then
            let url := "http://103.230.141.2/sketch/" ++ item_value in
            match fetch url with
            | None => mkOutcome item [url] [] (inl HTTPError)
            | Some body =>
                match bind_address with
                | Some address =>
                    mkOutcome item [url]
                      [""; "*** Wget will bind address at " ++ address ++ " ***"; ""]
                      (Seesaw.realize
                         (wget_args WGET_LUA USER_AGENT ++
                          [Plain "--bind-address"; Plain address])%list item)
                | None =>
                    mkOutcome item [url] []
                      (Seesaw.realize (wget_args WGET_LUA USER_AGENT) item)
                end
            end
          else mkOutcome item [] [] (inl (Exception "Unknown item"))
      end
  end.

End WgetArgs.

(** ** PrepareDirectories and MoveFiles *)

Module PrepareDirectories.

(** [item[key]] *)
Definition get (item : item_dict) (key : string) : io string :=
  match item !! key with
  | Some v => mret v
  | None => raise (KeyError key)
  end.

(** [process(item)] for the prefix of the task.  [sha1] is the
    hexadecimal SHA-1 digest of the item name, [now] the time formatted
    by [strftime], [isdir] what [os.path.isdir] answers.  When the method
    returns, the result is the item as it leaves it; the keys that it has
    set when a later call raises are not kept.  (The escaped item name
    that the method also computes is not used.) *)
Definition process (raises : file_system) (warc_prefix : string)
    (sha1 : string -> string) (now : string) (isdir : string -> bool)
    (item : item_dict) : io item_dict :=
  item_name ← get item "item_name";
  let item_hash := sha1 item_name in
  data_dir ← get item "data_dir";
  let dirname := data_dir ++ "/" ++ item_hash in
  (if isdir dirname then call raises (rmtree dirname) else mret tt);;
  call raises (makedirs dirname);;
  let item := <["item_dir" := dirname]> item in
  let item :=
    <["warc_file_base" := warc_prefix ++ "-" ++ item_hash ++ "-" ++ now]> item in
  warc ← lift (interpolate [Key "item_dir"; Text "/"; Key "warc_file_base";
                            Text ".warc.gz"] item);
  call raises (create warc);;
  data ← lift (interpolate [Key "item_dir"; Text "/"; Key "warc_file_base";
                            Text "_data.txt"] item);
  call raises (create data);;
  mret item.

End PrepareDirectories.

Module MoveFiles.

Definition zlib : string := "Please compile wget with zlib support!".

(** [process(item)]: [exists_] is what [os.path.exists] answers. *)
Definition process (raises : file_system) (exists_ : string -> bool)
    (item : item_dict) : io unit :=
  plain ← lift (interpolate [Key "item_dir"; Text "/"; Key "warc_file_base";
                             Text ".warc"] item);
  (if exists_ plain then raise (Exception zlib) else mret tt);;
  warc ← lift (interpolate [Key "item_dir"; Text "/"; Key "warc_file_base";
                            Text ".warc.gz"] item);
  warc' ← lift (interpolate [Key "data_dir"; Text "/"; Key "warc_file_base";
                             Text ".warc.gz"] item);
  call raises (rename warc warc');;
  data ← lift (interpolate [Key "item_dir"; Text "/"; Key "warc_file_base";
                            Text "_data.txt"] item);
  data' ← lift (interpolate [Key "data_dir"; Text "/"; Key "warc_file_base";
                             Text "_data.txt"] item);
  call raises (rename data data');;
  dir ← lift (interpolate [Key "item_dir"] item);
  call raises (rmtree dir).

End MoveFiles.

(** ** The vocabulary of the properties of the two tasks *)

Module Files.

(** The calls of a list made one after the other, from the calls that
    have returned so far and up to the first that raises: the calls that
    have returned, and the exception, if any. *)
Fixpoint perform (raises : file_system) (cs calls : list fs_call)
    : list fs_call * option error :=
  match cs with
  | [] => (calls, None)
  | c :: rest =>
      if raises calls c then (calls, Some (OSError c))
      else perform raises rest (calls ++ [c])%list
  end.

(** The run of a task that makes the calls and then returns [a]. *)
Definition finish {A} (a : A) (p : list fs_call * option error)
    : list fs_call * (error + A) :=
  match p.2 with
  | Some e => (p.1, inl e)
  | None => (p.1, inr a)
  end.

(** A file system on which no call raises. *)
Definition willing : file_system := fun _ _ => false.

(** A file system on which exactly the call [c] raises. *)
Definition unwilling (c : fs_call) : file_system :=
  fun _ c' => bool_decide (c' = c).

End Files.

(** The item as the Deduplicate task reads it. *)
Definition deduplicate_item (item : item_dict) : option Item :=
  dir ← item !! "item_dir";
  base ← item !! "warc_file_base";
  Some (mkItem dir base).

(** ** Header lemmas *)

Section HeaderLemmas.

Implicit Types (h : headers) (nl : string) (v : option string).

Lemma replace_last_None nl v h :
  replace_last nl v h = None <-> count_name nl h = 0.
Proof.
  induction h as [|hd t IH]; simpl; [done|].
  destruct (replace_last nl v t) as [t'|].
  - split; [done|]. intros Hc.
    assert (count_name nl t = 0) as Ht by lia.
    apply IH in Ht. done.
  - assert (count_name nl t = 0) as Ht by (by apply IH).
    destruct (name_is nl hd); split; intros; first [done | lia].
Qed.

Lemma replace_last_count nl nl' v h h' :
  replace_last nl' v h = Some h' -> count_name nl h' = count_name nl h.
Proof.
  revert h'. induction h as [|hd t IH]; intros h'; simpl; [done|].
  destruct (replace_last nl' v t) as [t'|].
  - intros [= <-]. simpl. by rewrite (IH t').
  - destruct (name_is nl' hd); [|done]. by intros [= <-].
Qed.

Lemma replace_last_find_ne nl nl' v h h' :
  nl <> nl' ->
  replace_last nl' v h = Some h' ->
  find (name_is nl) h' = find (name_is nl) h.
Proof.
  intros Hne. revert h'. induction h as [|hd t IH]; intros h'; simpl; [done|].
  destruct (replace_last nl' v t) as [t'|].
  - intros [= <-]. simpl. by rewrite (IH t').
  - destruct (name_is nl' hd) eqn:Hhd; [|done]. intros [= <-]. simpl.
    unfold name_is in *. simpl.
    apply String.eqb_eq in Hhd.
    destruct (String.eqb_spec (Py.lower hd.1) nl); [congruence|done].
Qed.

Lemma replace_last_find_eq nl v h h' :
  count_name nl h <= 1 ->
  replace_last nl v h = Some h' ->
  exists name, find (name_is nl) h' = Some (name, v).
Proof.
  revert h'. induction h as [|hd t IH]; intros h'; simpl; [done|].
  destruct (replace_last nl v t) as [t'|] eqn:Ht.
  - intros Hc [= <-]. simpl.
    destruct (name_is nl hd).
    + assert (count_name nl t = 0) as H0 by lia.
      apply (replace_last_None nl v) in H0. congruence.
    + apply IH; [lia|done].
  - destruct (name_is nl hd) eqn:Hhd; [|done]. intros _ [= <-]. simpl.
    unfold name_is in *. simpl. rewrite Hhd. eauto.
Qed.

Lemma find_app_miss nl h (hd : header) :
  name_is nl hd = false ->
  find (name_is nl) (h ++ [hd])%list = find (name_is nl) h.
Proof.
  intros Hhd. induction h as [|x t IH]; simpl; [by rewrite Hhd|].
  by destruct (name_is nl x).
Qed.

Lemma find_None_count nl h :
  count_name nl h = 0 -> find (name_is nl) h = None.
Proof.
  induction h as [|x t IH]; simpl; [done|].
  destruct (name_is nl x); [lia|]. intros; apply IH; lia.
Qed.

Lemma count_name_app nl h1 h2 :
  count_name nl (h1 ++ h2)%list = count_name nl h1 + count_name nl h2.
Proof. induction h1 as [|x t IH]; simpl; [done|]. rewrite IH. lia. Qed.

Lemma remove_last_None nl h :
  remove_last nl h = None <-> count_name nl h = 0.
Proof.
  induction h as [|hd t IH]; simpl; [done|].
  destruct (remove_last nl t) as [t'|].
  - split; [done|]. intros Hc.
    assert (count_name nl t = 0) as Ht by lia.
    apply IH in Ht. done.
  - assert (count_name nl t = 0) as Ht by (by apply IH).
    destruct (name_is nl hd); split; intros; first [done | lia].
Qed.

Lemma remove_last_count_eq nl h h' :
  remove_last nl h = Some h' -> S (count_name nl h') = count_name nl h.
Proof.
  revert h'. induction h as [|hd t IH]; intros h'; simpl; [done|].
  destruct (remove_last nl t) as [t'|] eqn:Ht.
  - intros [= <-]. simpl. specialize (IH t' eq_refl). lia.
  - destruct (name_is nl hd); [|done]. intros [= <-].
    apply remove_last_None in Ht. lia.
Qed.

Lemma remove_last_count_ne nl nl' h h' :
  nl <> nl' ->
  remove_last nl' h = Some h' -> count_name nl h' = count_name nl h.
Proof.
  intros Hne. revert h'. induction h as [|hd t IH]; intros h'; simpl; [done|].
  destruct (remove_last nl' t) as [t'|].
  - intros [= <-]. simpl. by rewrite (IH t').
  - destruct (name_is nl' hd) eqn:Hhd; [|done]. intros [= <-].
    unfold name_is in *. apply String.eqb_eq in Hhd.
    destruct (String.eqb_spec (Py.lower hd.1) nl); [congruence|done].
Qed.

Lemma remove_last_find_ne nl nl' h h' :
  nl <> nl' ->
  remove_last nl' h = Some h' ->
  find (name_is nl) h' = find (name_is nl) h.
Proof.
  intros Hne. revert h'. induction h as [|hd t IH]; intros h'; simpl; [done|].
  destruct (remove_last nl' t) as [t'|].
  - intros [= <-]. simpl. by rewrite (IH t').
  - destruct (name_is nl' hd) eqn:Hhd; [|done]. intros [= <-].
    unfold name_is in *. apply String.eqb_eq in Hhd.
    destruct (String.eqb_spec (Py.lower hd.1) nl); [congruence|done].
Qed.

End HeaderLemmas.

(** The lemmas at the level of the calls. *)

Lemma get_header_replace_ne name name' v h :
  Py.lower name <> Py.lower name' ->
  get_header name (replace_header name' v h) = get_header name h.
Proof.
  intros Hne. unfold get_header, replace_header.
  destruct (replace_last (Py.lower name') v h) as [h'|] eqn:Hr.
  - by rewrite (replace_last_find_ne _ _ _ _ _ Hne Hr).
  - rewrite find_app_miss; [done|].
    unfold name_is. simpl.
    destruct (String.eqb_spec (Py.lower name') (Py.lower name)); congruence.
Qed.

Lemma get_header_replace_eq name v h :
  count_header name h <= 1 ->
  get_header name (replace_header name v h) = v.
Proof.
  intros Hc. unfold get_header, replace_header, count_header in *.
  destruct (replace_last (Py.lower name) v h) as [h'|] eqn:Hr.
  - destruct (replace_last_find_eq _ _ _ _ Hc Hr) as [x ->]. done.
  - apply replace_last_None in Hr.
    assert (find (name_is (Py.lower name)) (h ++ [(name, v)])%list
            = Some (name, v)) as ->; [|done].
    clear Hc. induction h as [|x t IH]; simpl in *.
    + unfold name_is. simpl. by rewrite String.eqb_refl.
    + destruct (name_is (Py.lower name) x); [lia|]. apply IH. lia.
Qed.

Lemma count_header_replace_ne name name' v h :
  Py.lower name <> Py.lower name' ->
  count_header name (replace_header name' v h) = count_header name h.
Proof.
  intros Hne. unfold count_header, replace_header.
  destruct (replace_last (Py.lower name') v h) as [h'|] eqn:Hr.
  - by rewrite (replace_last_count _ _ _ _ _ Hr).
  - rewrite count_name_app. simpl. unfold name_is. simpl.
    destruct (String.eqb_spec (Py.lower name') (Py.lower name)); [congruence|lia].
Qed.

Lemma count_header_replace_present name name' v h :
  0 < count_header name' h ->
  count_header name (replace_header name' v h) = count_header name h.
Proof.
  intros Hc. unfold count_header, replace_header in *.
  destruct (replace_last (Py.lower name') v h) as [h'|] eqn:Hr.
  - by rewrite (replace_last_count _ _ _ _ _ Hr).
  - apply replace_last_None in Hr. lia.
Qed.

Lemma get_header_remove_ne name name' h :
  Py.lower name <> Py.lower name' ->
  get_header name (remove_header name' h) = get_header name h.
Proof.
  intros Hne. unfold get_header, remove_header.
  destruct (remove_last (Py.lower name') h) as [h'|] eqn:Hr; [|done].
  by rewrite (remove_last_find_ne _ _ _ _ Hne Hr).
Qed.

Lemma count_header_remove_ne name name' h :
  Py.lower name <> Py.lower name' ->
  count_header name (remove_header name' h) = count_header name h.
Proof.
  intros Hne. unfold count_header, remove_header.
  destruct (remove_last (Py.lower name') h) as [h'|] eqn:Hr; [|done].
  by rewrite (remove_last_count_ne _ _ _ _ Hne Hr).
Qed.

Lemma count_header_remove_eq name h :
  count_header name (remove_header name h) = pred (count_header name h).
Proof.
  unfold count_header, remove_header.
  destruct (remove_last (Py.lower name) h) as [h'|] eqn:Hr.
  - apply remove_last_count_eq in Hr. lia.
  - apply remove_last_None in Hr. lia.
Qed.

Lemma get_header_absent name h :
  count_header name h = 0 -> get_header name h = None.
Proof.
  intros Hc. unfold get_header. by rewrite find_None_count.
Qed.

Example re_wrapped : Py.re_search_group1 "<http://u1/>" = Some "http://u1/".
Proof. reflexivity. Qed.

Example re_open : Py.re_search_group1 "<uri" = None.
Proof. reflexivity. Qed.

Example re_nested : Py.re_search_group1 "<<a>>" = Some "<a>".
Proof. reflexivity. Qed.

Example lower_name : Py.lower "WARC-Type" = "warc-type".
Proof. reflexivity. Qed.

Example scenario_ABA :
  let p := process Samples.item [Samples.r1; Samples.r2; Samples.r3] in
  raised p = None /\
  (rec_type <$> written p) = [Some "response"; Some "response"; Some "revisit"] /\
  (get_header "WARC-Refers-To" ∘ rec_headers <$> written p)
    = [None; None; Some "<urn:uuid:1>"] /\
  (get_header "WARC-Refers-To-Target-URI" ∘ rec_headers <$> written p)
    = [None; None; Some "http://u1/"] /\
  (get_header "Content-Length" ∘ rec_headers <$> written p)
    = [Some "120"; Some "120"; None].
Proof. vm_compute. repeat split. Qed.

(** ** The pattern and the unwrapping of a target URI *)

Lemma dot_star_bracket (g : string) :
  Py.no_newline g = true -> Py.dot_star (g ++ ">") = Some g.
Proof.
  induction g as [|c g IH]; simpl; [done|].
  intros [Hc Hg]%andb_prop.
  destruct (Py.is_newline c); [done|].
  by rewrite IH.
Qed.

Lemma re_search_bracket (body : string) :
  body <> "" -> Py.no_newline body = true ->
  Py.re_search_group1 ("<" ++ body ++ ">") = Some body.
Proof.
  intros Hne Hnl. destruct body as [|c g]; [done|].
  simpl in *. apply andb_prop in Hnl as [Hc Hg].
  destruct (Py.is_newline c); [done|].
  by rewrite dot_star_bracket.
Qed.

Lemma dot_star_shorter (s g : string) :
  Py.dot_star s = Some g -> String.length g < String.length s.
Proof.
  revert g. induction s as [|c t IH]; intros g; cbn [Py.dot_star]; [done|].
  destruct (Py.is_newline c).
  - destruct (Py.match_tail (String c t)); intros [= <-]. simpl. lia.
  - destruct (Py.dot_star t) as [g'|].
    + intros [= <-]. simpl. specialize (IH g' eq_refl). lia.
    + destruct (Py.match_tail (String c t)); intros [= <-]. simpl. lia.
Qed.

Lemma re_search_shorter (url g : string) :
  Py.re_search_group1 url = Some g -> String.length g < String.length url.
Proof.
  destruct url as [|a t]; [done|]. unfold Py.re_search_group1.
  destruct (Ascii.eqb_spec a "<"%char) as [->|Hne].
  - destruct t as [|c t']; simpl; [done|].
    destruct (Py.is_newline c); [done|].
    destruct (Py.dot_star t') as [g'|] eqn:Hg; [|done].
    intros [= <-]. apply dot_star_shorter in Hg. simpl. lia.
  - intros H. exfalso.
    destruct a as [[] [] [] [] [] [] [] []]; try discriminate H.
    by apply Hne.
Qed.

Lemma unwrap_bare (url : string) :
  Py.startswith_lt url = false -> unwrap (Some url) = Ok (Some url).
Proof. intros H. unfold unwrap. by rewrite H. Qed.

(** A second unwrapping changes nothing exactly when the first result
    has no leading [<] left. *)
Lemma unwrap_fixed (once : option string) :
  unwrap once = Ok once <->
  (forall s, once = Some s -> Py.startswith_lt s = false).
Proof.
  destruct once as [s|]; [|by split].
  split.
  - intros H s' [= <-]. unfold unwrap in H.
    destruct (Py.startswith_lt s); [|done].
    destruct (Py.re_search_group1 s) as [g|] eqn:Hg; [|done].
    injection H as ->. apply re_search_shorter in Hg. lia.
  - intros H. by apply unwrap_bare, H.
Qed.

(** C4, as the claim states it, fails: a value wrapped twice is
    unwrapped once by each application, so the second application gives
    another result than the first. *)
Lemma C4_counterexample_nested_brackets :
  unwrap (Some "<<a>>") = Ok (Some "<a>") /\
  unwrap_twice (Some "<<a>>") = Ok (Some "a") /\
  unwrap_twice (Some "<<a>>") <> unwrap (Some "<<a>>").
Proof. vm_compute. repeat split. discriminate. Qed.

(** C4 (amended): the unwrapping of the target URI returns an absent
    value and a value that does not start with [<] unchanged; it returns
    the body of [<body>] when the body is not empty and holds no newline;
    and whenever the result of one application does not start with [<],
    a second application returns that same result. *)
Theorem C4_unwrap_target_uri_value :
  unwrap None = Ok None /\
  (forall url, Py.startswith_lt url = false ->
     unwrap (Some url) = Ok (Some url)) /\
  (forall body, body <> "" -> Py.no_newline body = true ->
     unwrap (Some ("<" ++ body ++ ">")) = Ok (Some body)) /\
  (forall url once, unwrap url = Ok once ->
     (forall s, once = Some s -> Py.startswith_lt s = false) ->
     unwrap_twice url = unwrap url).
Proof.
  split; [done|]. split; [apply unwrap_bare|]. split.
  - intros body Hne Hnl. unfold unwrap.
    change (Py.startswith_lt ("<" ++ body ++ ">")) with true. cbv iota.
    by rewrite re_search_bracket.
  - intros url once H1 Hbare. unfold unwrap_twice. rewrite H1.
    change (unwrap once = Ok once). by apply unwrap_fixed.
Qed.

Lemma C4_unwrap_target_uri_value_witness :
  unwrap (Some "http://u1/") = Ok (Some "http://u1/") /\
  unwrap (Some "<http://u1/>") = Ok (Some "http://u1/") /\
  unwrap_twice (Some "<http://u1/>") = unwrap (Some "<http://u1/>").
Proof.
  destruct C4_unwrap_target_uri_value as (_ & Hbare & Hwrapped & Hidem).
  split; [apply Hbare; reflexivity|].
  split; [apply (Hwrapped "http://u1/"); [discriminate|reflexivity]|].
  apply (Hidem _ (Some "http://u1/")); [reflexivity|].
  intros s [= <-]. reflexivity.
Defined.

(** ** One turn of the loop *)

Ltac names_differ :=
  let H := fresh in intros H; vm_compute in H; discriminate H.

Lemma get_header_present name h u :
  get_header name h = Some u -> 0 < count_header name h.
Proof.
  unfold get_header, count_header.
  induction h as [|hd t IH]; simpl; [done|].
  destruct (name_is (Py.lower name) hd); [lia|]. intros H. apply IH in H. lia.
Qed.

Lemma unwrap_target_uri_raise record :
  malformed_target_uri record ->
  unwrap_target_uri record = Raise AttributeError.
Proof.
  intros (url & Hget & Hlt & Hre). unfold unwrap_target_uri, unwrap.
  by rewrite Hget, Hlt, Hre.
Qed.

Lemma unwrap_target_uri_ok record :
  ~ malformed_target_uri record ->
  exists u, unwrap_target_uri record = Ok u.
Proof.
  intros Hwf. unfold unwrap_target_uri, unwrap.
  destruct (get_header "WARC-Target-URI" (rec_headers record)) as [url|] eqn:Hget;
    [|eauto].
  destruct (Py.startswith_lt url) eqn:Hlt; [|eauto].
  destruct (Py.re_search_group1 url) as [g|] eqn:Hre; [simpl; eauto|].
  destruct Hwf. by exists url.
Qed.

Lemma unwrap_target_uri_Ok_inv record u :
  unwrap_target_uri record = Ok u -> ~ malformed_target_uri record.
Proof.
  intros Hu Hbad. apply unwrap_target_uri_raise in Hbad. congruence.
Qed.

(** The unwrapping leaves everything but the value of the target URI. *)
Lemma unwrap_target_uri_frame record u :
  unwrap_target_uri record = Ok u ->
  rec_type u = rec_type record /\
  http_headers u = http_headers record /\
  raw_stream u = raw_stream record /\
  (forall name, Py.lower name <> "warc-target-uri" ->
     get_header name (rec_headers u) = get_header name (rec_headers record)) /\
  (forall name,
     count_header name (rec_headers u) = count_header name (rec_headers record)).
Proof.
  unfold unwrap_target_uri, unwrap.
  destruct (get_header "WARC-Target-URI" (rec_headers record)) as [url|] eqn:Hget;
    [|by intros [= <-]].
  destruct (Py.startswith_lt url); [|by intros [= <-]].
  destruct (Py.re_search_group1 url) as [g|]; [|done].
  intros [= <-]. simpl. repeat split.
  - intros name Hne. by apply get_header_replace_ne.
  - intros name. apply count_header_replace_present.
    by eapply get_header_present.
Qed.

Lemma unwrap_target_uri_is_response record u :
  unwrap_target_uri record = Ok u ->
  get_header "WARC-Type" (rec_headers u)
    = get_header "WARC-Type" (rec_headers record) /\
  payload_digest u = payload_digest record.
Proof.
  intros (_ & _ & _ & Hget & _)%unwrap_target_uri_frame.
  split; apply Hget; names_differ.
Qed.

Lemma process_record_raise item digests record e :
  unwrap_target_uri record = Raise e ->
  process_record item digests record = Raise e.
Proof. intros Hu. unfold process_record. by rewrite Hu. Qed.

Lemma process_record_seen item digests record u e :
  unwrap_target_uri record = Ok u ->
  is_response record ->
  digests !! payload_digest record = Some e ->
  process_record item digests record
    = Ok (digests, _record_response_to_revisit u e).
Proof.
  intros Hu Hresp Hk. unfold process_record. rewrite Hu.
  destruct (unwrap_target_uri_is_response _ _ Hu) as [Ht Hd].
  unfold is_response, payload_digest in *. cbn [mbind result_bind].
  rewrite Ht, Hd. rewrite decide_True by done. by rewrite Hk.
Qed.

Lemma process_record_new item digests record u :
  unwrap_target_uri record = Ok u ->
  is_response record ->
  digests !! payload_digest record = None ->
  process_record item digests record
    = Ok (<[payload_digest record := entry_of u]> digests, u).
Proof.
  intros Hu Hresp Hk. unfold process_record. rewrite Hu.
  destruct (unwrap_target_uri_is_response _ _ Hu) as [Ht Hd].
  unfold is_response, payload_digest in *. cbn [mbind result_bind].
  rewrite Ht, Hd. rewrite decide_True by done. by rewrite Hk.
Qed.

Lemma process_record_other item digests record u :
  unwrap_target_uri record = Ok u ->
  ~ is_response record ->
  process_record item digests record
    = Ok (digests,
          if decide (get_header "WARC-Type" (rec_headers record) = Some "warcinfo")
          then with_headers u
                 (replace_header "WARC-Filename" (Some (output_filename item))
                    (rec_headers u))
          else u).
Proof.
  intros Hu Hresp. unfold process_record. rewrite Hu.
  destruct (unwrap_target_uri_is_response _ _ Hu) as [Ht Hd].
  unfold is_response in *. cbn [mbind result_bind].
  rewrite Ht. rewrite decide_False by done.
  by destruct (decide _).
Qed.

(** What a turn does to the dictionary. *)
Lemma process_record_keeps item digests record digests' out k e :
  process_record item digests record = Ok (digests', out) ->
  digests !! k = Some e -> digests' !! k = Some e.
Proof.
  intros Hp Hk.
  destruct (unwrap_target_uri record) as [u|x] eqn:Hu;
    [|by rewrite (process_record_raise _ _ _ _ Hu) in Hp].
  destruct (decide (is_response record)) as [Hr|Hr].
  - destruct (digests !! payload_digest record) as [e'|] eqn:Hd.
    + rewrite (process_record_seen _ _ _ _ _ Hu Hr Hd) in Hp. by simplify_eq.
    + rewrite (process_record_new _ _ _ _ Hu Hr Hd) in Hp. simplify_eq.
      rewrite lookup_insert_ne; [done|]. congruence.
  - rewrite (process_record_other _ _ _ _ Hu Hr) in Hp. by simplify_eq.
Qed.

Lemma process_record_elsewhere item digests record digests' out k :
  process_record item digests record = Ok (digests', out) ->
  ~ is_response_with k record ->
  digests' !! k = digests !! k.
Proof.
  intros Hp Hk.
  destruct (unwrap_target_uri record) as [u|x] eqn:Hu;
    [|by rewrite (process_record_raise _ _ _ _ Hu) in Hp].
  destruct (decide (is_response record)) as [Hr|Hr].
  - destruct (digests !! payload_digest record) as [e'|] eqn:Hd.
    + rewrite (process_record_seen _ _ _ _ _ Hu Hr Hd) in Hp. by simplify_eq.
    + rewrite (process_record_new _ _ _ _ Hu Hr Hd) in Hp. simplify_eq.
      rewrite lookup_insert_ne; [done|]. intros <-. by apply Hk.
  - rewrite (process_record_other _ _ _ _ Hu Hr) in Hp. by simplify_eq.
Qed.

(** ** The revisit record *)

Ltac through_headers :=
  repeat first
    [ rewrite get_header_remove_ne by names_differ
    | rewrite get_header_replace_ne by names_differ
    | rewrite count_header_remove_ne by names_differ
    | rewrite count_header_replace_ne by names_differ ].

Lemma revisit_rec_type u e :
  rec_type (_record_response_to_revisit u e) = Some "revisit".
Proof. reflexivity. Qed.

Lemma revisit_http_headers u e :
  http_headers (_record_response_to_revisit u e) = http_headers u.
Proof. reflexivity. Qed.

(** The headers that the conversion does not name keep their value. *)
Lemma revisit_get_other u e name :
  Forall (fun field => Py.lower name <> Py.lower field) revisit_fields ->
  get_header name (rec_headers (_record_response_to_revisit u e))
    = get_header name (rec_headers u).
Proof.
  intros H. unfold revisit_fields in H.
  repeat match goal with
         | H : Forall _ (_ :: _) |- _ => apply Forall_cons in H as [? H]
         end.
  unfold _record_response_to_revisit, create_warc_record. cbn [rec_headers].
  rewrite !get_header_remove_ne by done.
  by rewrite !get_header_replace_ne by done.
Qed.

Lemma revisit_record_id_date u e :
  get_header "WARC-Record-ID" (rec_headers (_record_response_to_revisit u e))
    = get_header "WARC-Record-ID" (rec_headers u) /\
  get_header "WARC-Date" (rec_headers (_record_response_to_revisit u e))
    = get_header "WARC-Date" (rec_headers u).
Proof.
  split; apply revisit_get_other; unfold revisit_fields;
    repeat constructor; names_differ.
Qed.

(** The headers of a revisit record made from headers that repeat none
    of the fields. *)
Lemma revisit_fields_set u e :
  unrepeated revisit_fields (rec_headers u) ->
  let h := rec_headers (_record_response_to_revisit u e) in
  get_header "WARC-Refers-To" h = e.1.1 /\
  get_header "WARC-Refers-To-Date" h = e.1.2 /\
  get_header "WARC-Refers-To-Target-URI" h = e.2 /\
  get_header "WARC-Type" h = Some "revisit" /\
  get_header "WARC-Truncated" h = Some "length" /\
  get_header "WARC-Profile" h = Some profile /\
  count_header "WARC-Block-Digest" h = 0 /\
  count_header "Content-Length" h = 0.
Proof.
  intros H. unfold unrepeated, revisit_fields in H.
  repeat match goal with
         | H : Forall _ (_ :: _) |- _ => apply Forall_cons in H as [? H]
         end.
  unfold _record_response_to_revisit, create_warc_record. cbn [rec_headers].
  cbv zeta.
  repeat split; through_headers;
    try (apply get_header_replace_eq; through_headers; done).
  - rewrite count_header_remove_eq. through_headers. lia.
  - rewrite count_header_remove_eq. through_headers. lia.
Qed.

(** ** The loop *)

Lemma process_turn_Ok item digests record digests' out :
  process_turn item digests record = Ok (digests', out) <->
  process_record item digests record = Ok (digests', out) /\
  write_record out = Ok tt.
Proof.
  unfold process_turn.
  destruct (process_record item digests record) as [[m w]|e];
    cbn [mbind result_bind snd]; [|by split; [|intros [? _]]].
  destruct (write_record w) as [[]|e] eqn:Hw; cbn [mbind result_bind].
  - split; [by intros [= <- <-]|by intros [[= <- <-] _]].
  - split; [done|]. intros [[= <- <-] H]. congruence.
Qed.

Lemma process_turn_raise item digests record e :
  process_record item digests record = Raise e ->
  process_turn item digests record = Raise e.
Proof. intros H. unfold process_turn. by rewrite H. Qed.

Lemma process_from_cons item digests record rest :
  process_from item digests (record :: rest) =
  match process_turn item digests record with
  | Raise e => mkPass [] digests (Some e)
  | Ok (digests', out) =>
      let p := process_from item digests' rest in
      mkPass (out :: written p) (digests_of p) (raised p)
  end.
Proof. reflexivity. Qed.


Lemma completed_length item records : forall digests,
  raised (process_from item digests records) = None ->
  length (written (process_from item digests records)) = length records.
Proof.
  induction records as [|r rest IH]; intros m; [done|].
  rewrite process_from_cons.
  destruct (process_turn item m r) as [[m' w]|e]; simpl; [|done].
  intros H. by rewrite IH.
Qed.



(** The pass over two lists of records put end to end. *)
Lemma process_from_app item digests l1 l2 :
  process_from item digests (l1 ++ l2)%list =
  let p1 := process_from item digests l1 in
  match raised p1 with
  | Some _ => p1
  | None =>
      let p2 := process_from item (digests_of p1) l2 in
      mkPass (written p1 ++ written p2)%list (digests_of p2) (raised p2)
  end.
Proof.
  revert digests. induction l1 as [|r rest IH]; intros m.
  - cbn [process_from raised written digests_of]. cbv zeta.
    rewrite !app_nil_l. destruct (process_from item m l2) as [w d x].
    reflexivity.
  - rewrite <- app_comm_cons, !process_from_cons.
    destruct (process_turn item m r) as [[m' w]|e]; [|done].
    cbv zeta. rewrite IH. cbv zeta. cbn [raised written digests_of].
    by destruct (process_from item m' rest) as [w1 d1 [e1|]].
Qed.

(** The records written for the first [i] records read do not depend
    on the records that follow. *)
Lemma written_take item records : forall digests i,
  take i (written (process_from item digests records))
    = written (process_from item digests (take i records)).
Proof.
  induction records as [|r rest IH]; intros m i.
  - by destruct i.
  - destruct i as [|i]; [done|].
    cbn [take]. rewrite !process_from_cons.
    destruct (process_turn item m r) as [[m' w]|e]; simpl; [|done].
    by rewrite IH.
Qed.

(** The record written at a position is what the turn of the loop makes
    of the record read at that position, in the dictionary left by the
    records before it; the writer accepted it, and the records before it
    were all written. *)
Lemma written_lookup_turn item records : forall digests i out,
  written (process_from item digests records) !! i = Some out ->
  exists record digests',
    records !! i = Some record /\
    process_turn item
      (digests_of (process_from item digests (take i records))) record
      = Ok (digests', out) /\
    raised (process_from item digests (take i records)) = None.
Proof.
  induction records as [|r rest IH]; intros m i out; [done|].
  rewrite process_from_cons.
  destruct (process_turn item m r) as [[m' w]|e] eqn:Hp; simpl; [|done].
  destruct i as [|i]; simpl.
  - intros [= <-]. eauto.
  - intros H. apply IH in H as (record & d' & Hr & Hstep & Hdone).
    exists record, d'. split; [done|].
    rewrite ?process_from_cons, Hp. done.
Qed.

Lemma written_lookup item records : forall digests i out,
  written (process_from item digests records) !! i = Some out ->
  exists record digests',
    records !! i = Some record /\
    process_record item
      (digests_of (process_from item digests (take i records))) record
      = Ok (digests', out).
Proof.
  intros m i out H.
  apply written_lookup_turn in H as (record & d' & Hr & Hstep & _).
  apply process_turn_Ok in Hstep as [Hstep _]. eauto.
Qed.

(** The three shapes of a written record. *)
Lemma process_record_shape item digests record digests' out :
  process_record item digests record = Ok (digests', out) ->
  exists u, unwrap_target_uri record = Ok u /\
    (out = u \/
     out = with_headers u
             (replace_header "WARC-Filename" (Some (output_filename item))
                (rec_headers u)) \/
     exists e, out = _record_response_to_revisit u e).
Proof.
  intros Hp.
  destruct (unwrap_target_uri record) as [u|x] eqn:Hu;
    [|by rewrite (process_record_raise _ _ _ _ Hu) in Hp].
  exists u. split; [done|].
  destruct (decide (is_response record)) as [Hr|Hr].
  - destruct (digests !! payload_digest record) as [e'|] eqn:Hd.
    + rewrite (process_record_seen _ _ _ _ _ Hu Hr Hd) in Hp. simplify_eq. eauto.
    + rewrite (process_record_new _ _ _ _ Hu Hr Hd) in Hp. simplify_eq. eauto.
  - rewrite (process_record_other _ _ _ _ Hu Hr) in Hp. simplify_eq.
    destruct (decide _); eauto.
Qed.

(** A record with a rejected target URI ends the pass, at its own turn
    or at an earlier one. *)
Lemma malformed_aborts item records : forall digests i record,
  records !! i = Some record ->
  malformed_target_uri record ->
  is_Some (raised (process_from item digests records)) /\
  length (written (process_from item digests records)) <= i.
Proof.
  induction records as [|r rest IH]; intros m i record; [done|].
  rewrite process_from_cons.
  destruct i as [|i]; simpl.
  - intros [= ->] Hbad. apply unwrap_target_uri_raise in Hbad.
    by rewrite (process_turn_raise _ _ _ _ (process_record_raise _ _ _ _ Hbad)).
  - intros Hr Hbad.
    destruct (process_turn item m r) as [[m' w]|e]; simpl;
      [|split; [done|lia]].
    destruct (IH m' i record Hr Hbad) as [Hraised Hlen]. split; [done|lia].
Qed.

(** When the records before it were all written, it is its own turn
    that raises. *)
Lemma malformed_aborts_at item records : forall digests i record,
  records !! i = Some record ->
  malformed_target_uri record ->
  raised (process_from item digests (take i records)) = None ->
  raised (process_from item digests records) = Some AttributeError /\
  length (written (process_from item digests records)) = i.
Proof.
  induction records as [|r rest IH]; intros m i record; [done|].
  destruct i as [|i]; cbn [take]; rewrite ?process_from_cons.
  - intros [= ->] Hbad _. apply unwrap_target_uri_raise in Hbad.
    by rewrite (process_turn_raise _ _ _ _ (process_record_raise _ _ _ _ Hbad)).
  - simpl. intros Hr Hbad.
    destruct (process_turn item m r) as [[m' w]|e]; simpl; [|done].
    intros Hdone.
    destruct (IH m' i record Hr Hbad Hdone) as [-> ->]. done.
Qed.

(** ** The writer *)


Lemma all_str_replace_last nl v h h' :
  all_str h = true -> replace_last nl (Some v) h = Some h' -> all_str h' = true.
Proof.
  unfold all_str. revert h'.
  induction h as [|hd t IH]; intros h'; simpl; [done|].
  intros [Hv Ht]%andb_prop.
  destruct (replace_last nl (Some v) t) as [t'|].
  - intros [= <-]. simpl. by rewrite Hv, (IH t').
  - destruct (name_is nl hd); [|done]. intros [= <-]. simpl. by rewrite Ht.
Qed.

Lemma all_str_replace_header name v h :
  all_str h = true -> all_str (replace_header name (Some v) h) = true.
Proof.
  intros Hh. unfold replace_header.
  destruct (replace_last (Py.lower name) (Some v) h) as [h'|] eqn:Hr.
  - by eapply all_str_replace_last.
  - unfold all_str in *. rewrite forallb_app. simpl. by rewrite Hh.
Qed.



Lemma write_record_Ok record :
  write_record record = Ok tt <->
  all_str (rec_headers record) = true /\
  match http_headers record with
  | Some h => all_str h = true
  | None => True
  end.
Proof.
  unfold write_record.
  destruct (all_str (rec_headers record)); simpl.
  - destruct (http_headers record) as [h|]; [|done].
    destruct (all_str h); [done|]. split; [done|]. by intros [_ ?].
  - split; [done|]. by intros [? _].
Qed.

(** The writer raises nothing but TypeError. *)
Lemma write_record_raise record e :
  write_record record = Raise e -> e = TypeError.
Proof. unfold write_record. destruct (_ && _); [done|]. by intros [= <-]. Qed.

(** A record that the writer takes is taken with other headers whose
    values are strings. *)
Lemma write_record_with_headers record h :
  write_record record = Ok tt -> all_str h = true ->
  write_record (with_headers record h) = Ok tt.
Proof.
  rewrite !write_record_Ok. cbn [rec_headers http_headers with_headers].
  by intros [_ Hhttp] Hh.
Qed.

Lemma write_record_unwrapped record u :
  unwrap_target_uri record = Ok u ->
  write_record record = Ok tt -> write_record u = Ok tt.
Proof.
  unfold unwrap_target_uri, unwrap.
  destruct (get_header "WARC-Target-URI" (rec_headers record)) as [url|];
    [|by intros [= <-]].
  destruct (Py.startswith_lt url); [|by intros [= <-]].
  destruct (Py.re_search_group1 url) as [g|]; [|done].
  intros [= <-] Hw. cbn [mbind result_bind].
  apply write_record_with_headers; [done|].
  apply all_str_replace_header. by apply write_record_Ok in Hw as [? _].
Qed.

(** On a record that the writer takes as read, the writer only refuses
    a revisit record: the turn has left the dictionary as it was. *)
Lemma refused_turn_keeps_index item digests record digests' out e :
  write_record record = Ok tt ->
  process_record item digests record = Ok (digests', out) ->
  write_record out = Raise e ->
  digests' = digests /\ rec_type out = Some "revisit".
Proof.
  intros Hw Hp Hout.
  destruct (unwrap_target_uri record) as [u|x] eqn:Hu;
    [|by rewrite (process_record_raise _ _ _ _ Hu) in Hp].
  pose proof (write_record_unwrapped _ _ Hu Hw) as Hwu.
  destruct (decide (is_response record)) as [Hr|Hr].
  - destruct (digests !! payload_digest record) as [e'|] eqn:Hd.
    + rewrite (process_record_seen _ _ _ _ _ Hu Hr Hd) in Hp. by simplify_eq.
    + rewrite (process_record_new _ _ _ _ Hu Hr Hd) in Hp. simplify_eq.
      congruence.
  - rewrite (process_record_other _ _ _ _ Hu Hr) in Hp. simplify_eq.
    destruct (decide _); [|congruence].
    rewrite write_record_with_headers in Hout; [done|done|].
    apply all_str_replace_header. by apply write_record_Ok in Hwu as [? _].
Qed.





(** A response record without a WARC-Date header is written as it is;
    the record that repeats its digest is made into a revisit record whose
    WARC-Refers-To-Date is [None], and the writer raises TypeError on
    it. *)
Example undated_first_occurrence :
  let p := process Samples.item [Samples.r1_undated; Samples.r3] in
  raised p = Some TypeError /\
  (rec_type <$> written p) = [Some "response"].
Proof. vm_compute. by split. Qed.

(** A rejected target URI after that turn is not reached: the pass has
    ended with the TypeError. *)
Example earlier_exception_ends_the_pass :
  let p := process Samples.item
             [Samples.r1_undated; Samples.r3; Samples.r3_open] in
  raised p = Some TypeError /\ length (written p) = 1.
Proof. vm_compute. by split. Qed.

(** A response record without a WARC-Date header is not acceptable, but
    a pass over it completes when no later record has its digest. *)
Example undated_and_not_repeated :
  ~ acceptable Samples.r1_undated /\
  raised (process Samples.item [Samples.r1_undated; Samples.r2]) = None.
Proof.
  split; [|vm_compute; reflexivity].
  intros (_ & _ & Hfull).
  destruct (Hfull eq_refl) as (_ & [date Hdate] & _).
  vm_compute in Hdate. discriminate Hdate.
Qed.

(** ** First occurrences *)

Lemma exchanged_from_cons item digests record rest :
  exchanged_from item digests (record :: rest) =
  match process_turn item digests record with
  | Raise e => []
  | Ok (digests', out) => (record, out) :: exchanged_from item digests' rest
  end.
Proof.
  unfold exchanged_from. rewrite process_from_cons.
  by destruct (process_turn item digests record) as [[m' w]|e].
Qed.

(** From a dictionary that holds [k], every response record with the
    digest [k] is converted; from one that does not, the first is written
    and the later ones are converted with the entry it left. *)
Lemma exchanged_from_structure item k records : forall digests,
  let pairs :=
    filter (fun p => is_response_with k p.1) (exchanged_from item digests records) in
  match digests !! k with
  | Some e => Forall (converted e) pairs
  | None => retained_then_converted pairs
  end.
Proof.
  induction records as [|r rest IH]; intros m; cbv zeta.
  { unfold exchanged_from. simpl. rewrite filter_nil. by destruct (m !! k). }
  rewrite exchanged_from_cons.
  destruct (process_turn item m r) as [[m' w]|x] eqn:Ht;
    [|rewrite filter_nil; by destruct (m !! k)].
  apply process_turn_Ok in Ht as [Hp _].
  specialize (IH m'). cbv zeta in IH.
  destruct (decide (is_response_with k r)) as [Hk|Hk].
  - rewrite filter_cons_True by done.
    destruct Hk as [Hresp Hkey].
    destruct (unwrap_target_uri r) as [u|x] eqn:Hu;
      [|by rewrite (process_record_raise _ _ _ _ Hu) in Hp].
    destruct (m !! k) as [e|] eqn:Hm.
    + rewrite <- Hkey in Hm.
      rewrite (process_record_seen _ _ _ _ _ Hu Hresp Hm) in Hp. simplify_eq.
      rewrite Hm in IH. constructor; [|done]. by exists u.
    + rewrite <- Hkey in Hm.
      rewrite (process_record_new _ _ _ _ Hu Hresp Hm) in Hp. simplify_eq.
      rewrite lookup_insert_eq in IH. by split.
  - rewrite filter_cons_False by done.
    by rewrite <- (process_record_elsewhere _ _ _ _ _ _ Hp Hk).
Qed.

Lemma exchanged_for_structure item k records :
  retained_then_converted (exchanged_for item k records).
Proof.
  pose proof (exchanged_from_structure item k records ∅) as H.
  cbv zeta in H. by rewrite lookup_empty in H.
Qed.

Lemma filter_fst {A B} (P : A -> Prop) `{!forall x, Decision (P x)}
    (l : list (A * B)) :
  (filter (fun p => P p.1) l).*1 = filter P (l.*1).
Proof.
  induction l as [|[a b] l IH]; [done|].
  rewrite fmap_cons. cbn [fst].
  destruct (decide (P a)) as [Ha|Ha].
  - rewrite !filter_cons_True by done. rewrite fmap_cons. cbn [fst]. by rewrite IH.
  - by rewrite !filter_cons_False by done.
Qed.

Lemma count_type_revisits l :
  Forall (fun w => rec_type w = Some "revisit") l ->
  count_type "revisit" l = length l /\ count_type "response" l = 0.
Proof.
  unfold count_type. induction 1 as [|w l Hw Hl [IH1 IH2]]; [done|].
  rewrite filter_cons_True by done.
  rewrite filter_cons_False by (rewrite Hw; discriminate).
  simpl. by rewrite IH1.
Qed.

Lemma converted_rec_type e rest :
  Forall (converted e) rest ->
  Forall (fun w => rec_type w = Some "revisit") rest.*2.
Proof.
  intros H. apply Forall_fmap. eapply Forall_impl; [exact H|].
  intros [r w] (u & _ & Hw). cbn [snd] in Hw. subst w. reflexivity.
Qed.

(** Every response record that the pass gets to is among the pairs of
    its digest: as the first pair it is retained, as a later pair it is
    converted. *)
Lemma response_pair_exchanged item records i record out :
  records !! i = Some record ->
  written (process item records) !! i = Some out ->
  is_response record ->
  (record, out) ∈ exchanged_for item (payload_digest record) records.
Proof.
  intros Hr Hout Hresp. unfold exchanged_for.
  apply list_elem_of_filter. split; [done|].
  apply list_elem_of_lookup. exists i.
  unfold exchanged, exchanged_from. by apply lookup_zip_Some.
Qed.

(** Two response records without a digest, read one after the other
    from an empty dictionary: the second becomes a revisit record that
    refers to the first, when the writer accepts the two records. *)
Lemma digestless_pair item ra rb ua ub :
  is_response ra -> payload_digest ra = None ->
  is_response rb -> payload_digest rb = None ->
  unwrap_target_uri ra = Ok ua -> unwrap_target_uri rb = Ok ub ->
  write_record ua = Ok tt ->
  write_record (_record_response_to_revisit ub (entry_of ua)) = Ok tt ->
  written (process item [ra; rb])
    = [ua; _record_response_to_revisit ub (entry_of ua)] /\
  digests_of (process item [ra; rb]) !! None = Some (entry_of ua).
Proof.
  intros Hra Hka Hrb Hkb Hua Hub Hwa Hwb. unfold process.
  rewrite process_from_cons.
  assert (process_turn item ∅ ra = Ok (<[payload_digest ra := entry_of ua]> ∅, ua))
    as ->.
  { apply process_turn_Ok. split; [|done].
    apply process_record_new; [done|done|by rewrite lookup_empty]. }
  cbv zeta. rewrite process_from_cons.
  assert (process_turn item (<[payload_digest ra := entry_of ua]> ∅) rb
          = Ok (<[payload_digest ra := entry_of ua]> ∅,
                _record_response_to_revisit ub (entry_of ua))) as ->.
  { apply process_turn_Ok. split; [|done].
    apply process_record_seen; [done|done|].
    by rewrite Hka, Hkb, lookup_insert_eq. }
  cbn [process_from written digests_of].
  by rewrite Hka, lookup_insert_eq.
Qed.

(** What the dictionary holds under a key at the end of a pass. *)
Lemma index_lookup_from item k records : forall digests,
  digests_of (process_from item digests records) !! k =
  match digests !! k with
  | Some e => Some e
  | None =>
      (fun p => entry_of p.2) <$>
        head (filter (fun p => is_response_with k p.1)
                (exchanged_from item digests records))
  end.
Proof.
  induction records as [|r rest IH]; intros m.
  { unfold exchanged_from. simpl. by destruct (m !! k). }
  rewrite exchanged_from_cons, process_from_cons.
  destruct (process_turn item m r) as [[m' w]|x] eqn:Ht;
    [|rewrite filter_nil; cbn [digests_of]; by destruct (m !! k)].
  apply process_turn_Ok in Ht as [Hp _].
  cbv zeta. cbn [digests_of]. rewrite (IH m').
  destruct (decide (is_response_with k r)) as [Hk|Hk].
  - rewrite filter_cons_True by done.
    destruct Hk as [Hresp Hkey].
    destruct (unwrap_target_uri r) as [u|x] eqn:Hu;
      [|by rewrite (process_record_raise _ _ _ _ Hu) in Hp].
    destruct (m !! k) as [e|] eqn:Hm; rewrite <- Hkey in Hm.
    + rewrite (process_record_seen _ _ _ _ _ Hu Hresp Hm) in Hp. simplify_eq.
      by rewrite Hm.
    + rewrite (process_record_new _ _ _ _ Hu Hresp Hm) in Hp. simplify_eq.
      by rewrite lookup_insert_eq.
  - rewrite filter_cons_False by done.
    by rewrite (process_record_elsewhere _ _ _ _ _ _ Hp Hk).
Qed.

Lemma index_lookup item records k :
  digests_of (process item records) !! k
    = (fun p => entry_of p.2) <$> head (exchanged_for item k records).
Proof.
  unfold process, exchanged_for, exchanged.
  by rewrite index_lookup_from, lookup_empty.
Qed.

Lemma exchanged_fst_completed item records :
  raised (process item records) = None ->
  (exchanged item records).*1 = records.
Proof.
  intros Hdone. unfold exchanged, exchanged_from. apply fst_zip.
  by rewrite (completed_length item records ∅ Hdone).
Qed.

(** ** The inputs on which the pass completes *)















(** Acceptable records make a passable input. *)
Lemma acceptable_passable records :
  Forall acceptable records -> Forall writable records /\ passable records.
Proof.
  intros Hall. split.
  - eapply Forall_impl; [exact Hall|]. by intros r [? _].
  - rewrite Forall_lookup in Hall. intros i record Hi.
    destruct (Hall i record Hi) as (_ & Hwf & _). split; [done|].
    intros _ first Hfirst.
    apply head_Some_elem_of in Hfirst.
    apply list_elem_of_filter in Hfirst as [[Hresp _] Hfirst].
    apply list_elem_of_lookup in Hfirst as [j Hj].
    apply lookup_take_Some in Hj as [Hj _].
    destruct (Hall j first Hj) as (_ & _ & Hfull). by apply Hfull.
Qed.

(** ** The claims *)

(** C1 (the code departs from the claim): two response records without a
    WARC-Payload-Digest header.  The first is written as read, but it is
    entered into the dictionary under the key [None]; the second finds
    that entry and is written as a revisit record that refers to the
    first, without its payload. *)
Theorem C1_missing_digest_is_indexed_and_converted :
  let p := process Samples.item [Samples.n1; Samples.n2] in
  payload_digest Samples.n1 = None /\
  payload_digest Samples.n2 = None /\
  raised p = None /\
  digests_of p !! None
    = Some (Some "<urn:uuid:4>", Some "2019-06-22T04:00:00Z", Some "http://u4/") /\
  (rec_type <$> written p) = [Some "response"; Some "revisit"] /\
  (get_header "WARC-Refers-To" ∘ rec_headers <$> written p)
    = [None; Some "<urn:uuid:4>"] /\
  (raw_stream <$> written p) = ["payload bytes"; ""].
Proof. vm_compute. repeat split. Qed.

(** C2, as the claim states it, fails: the digest sha1:A is on two
    response records, the second has a target URI that the pattern
    rejects, the pass raises there, and one response and no revisit
    record are written. *)
Lemma C2_counterexample_aborted_pass :
  let records := [Samples.r1; Samples.r3_open] in
  let p := process Samples.item records in
  length (filter (is_response_with (Some "sha1:A")) records) = 2 /\
  raised p = Some AttributeError /\
  count_type "response" (written p) = 1 /\
  count_type "revisit" (written p) = 0.
Proof. vm_compute. repeat split. Qed.

(** C2 (amended): on an input over which the pass completes, that is,
    ends without an exception, the N >= 1 response records that carry the
    digest d are written as N records: the first of them in file order is
    written as a response record, as it was read but for the unwrapping of
    its target URI, and the other N - 1 are written as revisit records
    made from them and the entry of the first.  When the records have the
    type that their WARC-Type header names, as the reader gives it,
    exactly 1 of the N written records has the type response and N - 1
    have the type revisit. *)
Theorem C2_first_occurrence item records d :
  raised (process item records) = None ->
  let hits := filter (is_response_with (Some d)) records in
  let out := (exchanged_for item (Some d) records).*2 in
  1 <= length hits ->
  length out = length hits /\
  (exists rf first rest,
     hits !! 0 = Some rf /\
     exchanged_for item (Some d) records = (rf, first) :: rest /\
     unwrap_target_uri rf = Ok first /\
     is_response_with (Some d) first /\
     length rest = length hits - 1 /\
     Forall (converted (entry_of first)) rest /\
     Forall (fun w => rec_type w = Some "revisit") rest.*2) /\
  (Forall parsed records ->
   count_type "response" out = 1 /\
   count_type "revisit" out = length hits - 1).
Proof.
  intros Hdone hits out Hn.
  pose proof (completed_length item records ∅ Hdone) as Hlen.
  assert ((exchanged_for item (Some d) records).*1 = hits) as Hfst.
  { unfold exchanged_for, exchanged, exchanged_from. rewrite filter_fst.
    rewrite fst_zip; [done|]. by rewrite Hlen. }
  pose proof (exchanged_for_structure item (Some d) records) as Hs.
  subst out.
  destruct (exchanged_for item (Some d) records) as [|[rf first] rest].
  { rewrite <- Hfst in Hn. simpl in Hn. lia. }
  destruct Hs as [Hu Hconv].
  assert (rf ∈ hits) as Hin by (rewrite <- Hfst; left).
  apply list_elem_of_filter in Hin as [[Hresp Hkey] Hin].
  destruct (unwrap_target_uri_is_response _ _ Hu) as [Htype Hdigest].
  destruct (unwrap_target_uri_frame _ _ Hu) as (Hrt & _).
  pose proof (converted_rec_type _ _ Hconv) as Hrevs.
  destruct (count_type_revisits _ Hrevs) as [Hrev Hnone].
  assert (length hits = S (length rest)) as Hhits.
  { rewrite <- Hfst. simpl. by rewrite !length_fmap. }
  rewrite fmap_cons. cbn [snd].
  split; [by rewrite Hhits, length_cons, length_fmap|].
  split.
  { exists rf, first, rest. repeat split; try done.
    - by rewrite <- Hfst.
    - unfold is_response in *. by rewrite Htype.
    - by rewrite Hdigest.
    - lia. }
  intros Hparsed.
  assert (rec_type first = Some "response") as Hfirst.
  { rewrite Hrt. rewrite Forall_forall in Hparsed. by rewrite (Hparsed rf Hin). }
  unfold count_type in *. split.
  - rewrite filter_cons_True by done. simpl. by rewrite Hnone.
  - rewrite filter_cons_False by (rewrite Hfirst; discriminate).
    rewrite Hrev, length_fmap. lia.
Qed.

Ltac sample_wellformed_one :=
  let url := fresh "url" in
  let Hget := fresh "Hget" in
  let Hre := fresh "Hre" in
  intros (url & Hget & _ & Hre);
  vm_compute in Hget; simplify_eq; discriminate Hre.

Ltac sample_wellformed := repeat constructor; sample_wellformed_one.

Lemma C2_first_occurrence_witness :
  let out := (exchanged_for Samples.item (Some "sha1:A") Samples.aba).*2 in
  length out = 2 /\
  count_type "response" out = 1 /\ count_type "revisit" out = 1.
Proof.
  destruct (C2_first_occurrence Samples.item Samples.aba "sha1:A")
    as (Hlen & _ & Hcount).
  - vm_compute. reflexivity.
  - vm_compute. lia.
  - destruct Hcount as [Hresp Hrev]; [repeat constructor|].
    split; [exact Hlen|]. split; [exact Hresp|exact Hrev].
Defined.

(** C3, as the claim states it, fails: a response record that repeats
    its Content-Length header is converted into a revisit record that
    still carries one Content-Length header. *)
Lemma C3_counterexample_repeated_header :
  let p := process Samples.item [Samples.r1; Samples.r3_twice] in
  raised p = None /\
  (rec_type <$> written p) = [Some "response"; Some "revisit"] /\
  (count_header "Content-Length" ∘ rec_headers <$> written p) = [1; 1] /\
  (get_header "Content-Length" ∘ rec_headers <$> written p)
    = [Some "120"; Some "120"].
Proof. vm_compute. repeat split. Qed.

(** C3 (amended): among the pairs (record read, record written) of the
    response records with one digest, the first written record is the
    retained response; every later one, when the record read repeats none
    of the headers that the conversion replaces or removes, is a revisit
    record whose WARC-Refers-To, WARC-Refers-To-Date and
    WARC-Refers-To-Target-URI are the WARC-Record-ID, WARC-Date and
    WARC-Target-URI of the retained response, whose WARC-Type is revisit,
    WARC-Truncated length and WARC-Profile the identical-payload-digest
    profile, and which has no WARC-Block-Digest and no Content-Length
    header. *)
Theorem C3_revisit_headers item records k rf first rest i r out :
  exchanged_for item k records = (rf, first) :: rest ->
  rest !! i = Some (r, out) ->
  unrepeated revisit_fields (rec_headers r) ->
  let h := rec_headers out in
  rec_type out = Some "revisit" /\
  get_header "WARC-Refers-To" h = get_header "WARC-Record-ID" (rec_headers first) /\
  get_header "WARC-Refers-To-Date" h = get_header "WARC-Date" (rec_headers first) /\
  get_header "WARC-Refers-To-Target-URI" h
    = get_header "WARC-Target-URI" (rec_headers first) /\
  get_header "WARC-Type" h = Some "revisit" /\
  get_header "WARC-Truncated" h = Some "length" /\
  get_header "WARC-Profile" h
    = Some "http://netpreserve.org/warc/1.0/revisit/identical-payload-digest" /\
  count_header "WARC-Block-Digest" h = 0 /\
  count_header "Content-Length" h = 0 /\
  get_header "WARC-Block-Digest" h = None /\
  get_header "Content-Length" h = None.
Proof.
  intros Hex Hi Hunrep h.
  pose proof (exchanged_for_structure item k records) as Hs.
  rewrite Hex in Hs. destruct Hs as [_ Hconv].
  rewrite Forall_lookup in Hconv.
  destruct (Hconv i _ Hi) as (u & Hu & Hout). cbn [fst snd] in Hu, Hout.
  assert (unrepeated revisit_fields (rec_headers u)) as Hunrep'.
  { destruct (unwrap_target_uri_frame _ _ Hu) as (_ & _ & _ & _ & Hcount).
    unfold unrepeated in *. eapply Forall_impl; [exact Hunrep|].
    intros name. cbv beta. by rewrite Hcount. }
  destruct (revisit_fields_set u (entry_of first) Hunrep')
    as (H1 & H2 & H3 & H4 & H5 & H6 & H7 & H8).
  subst h out. cbv zeta in *.
  repeat split; try done; by apply get_header_absent.
Qed.

Lemma C3_revisit_headers_witness :
  let out := Samples.aba_written 2 in
  get_header "WARC-Refers-To" (rec_headers out) = Some "<urn:uuid:1>" /\
  get_header "WARC-Refers-To-Date" (rec_headers out) = Some "2019-06-22T01:00:00Z" /\
  get_header "WARC-Refers-To-Target-URI" (rec_headers out) = Some "http://u1/" /\
  get_header "Content-Length" (rec_headers out) = None.
Proof.
  destruct (C3_revisit_headers Samples.item Samples.aba (Some "sha1:A")
              Samples.r1 (Samples.aba_written 0)
              [(Samples.r3, Samples.aba_written 2)] 0
              Samples.r3 (Samples.aba_written 2))
    as (_ & H1 & H2 & H3 & _ & _ & _ & _ & _ & _ & H4).
  - vm_compute. reflexivity.
  - reflexivity.
  - repeat constructor; vm_compute; lia.
  - split; [exact H1|]. split; [exact H2|]. split; [exact H3|exact H4].
Defined.





(** C6: a record whose WARC-Type is not response (warcinfo, request,
    metadata, revisit, any other value, or no value) leaves the
    dictionary as it was, and what the turn of the loop does with it
    does not depend on the dictionary: with any two dictionaries the
    turn raises the same exception or writes the same record. *)
Theorem C6_only_responses_use_the_index item digests1 digests2 record :
  get_header "WARC-Type" (rec_headers record) <> Some "response" ->
  match process_record item digests1 record,
        process_record item digests2 record with
  | Ok (digests1', out1), Ok (digests2', out2) =>
      digests1' = digests1 /\ digests2' = digests2 /\ out1 = out2
  | Raise e1, Raise e2 => e1 = e2
  | _, _ => False
  end.
Proof.
  intros Hother.
  destruct (unwrap_target_uri record) as [u|e] eqn:Hu.
  - by rewrite !(process_record_other _ _ _ _ Hu Hother).
  - by rewrite !(process_record_raise _ _ _ _ Hu).
Qed.

Lemma C6_only_responses_use_the_index_witness :
  match process_record Samples.item ∅ Samples.info,
        process_record Samples.item
          {[ Some "sha1:A" := entry_of Samples.r1 ]} Samples.info with
  | Ok (digests1', out1), Ok (digests2', out2) =>
      digests1' = ∅ /\
      digests2' = {[ Some "sha1:A" := entry_of Samples.r1 ]} /\
      out1 = out2
  | Raise e1, Raise e2 => e1 = e2
  | _, _ => False
  end.
Proof.
  apply (C6_only_responses_use_the_index Samples.item ∅
           {[ Some "sha1:A" := entry_of Samples.r1 ]} Samples.info).
  vm_compute. discriminate.
Defined.

(** C7: the record written at position i is the rewrite of the record
    read at position i: what the turn of the loop makes of it in the
    dictionary left by the i records before it, which is that record with
    its target URI unwrapped, or that with the WARC-Filename replaced, or
    the revisit record made from it.  The first i records written are
    those of a pass over the first i records read alone. *)
Theorem C7_order_preserved item records i out :
  written (process item records) !! i = Some out ->
  exists record digests' u,
    records !! i = Some record /\
    process_record item (digests_of (process item (take i records))) record
      = Ok (digests', out) /\
    unwrap_target_uri record = Ok u /\
    (out = u \/
     out = with_headers u
             (replace_header "WARC-Filename" (Some (output_filename item))
                (rec_headers u)) \/
     exists e, out = _record_response_to_revisit u e) /\
    take i (written (process item records))
      = written (process item (take i records)).
Proof.
  intros Hout. unfold process in *.
  apply written_lookup in Hout as (record & d' & Hr & Hstep).
  destruct (process_record_shape _ _ _ _ _ Hstep) as (u & Hu & Hshape).
  exists record, d', u. repeat split; try done.
  apply written_take.
Qed.

Lemma C7_order_preserved_witness :
  exists digests' u,
    Samples.aba !! 2 = Some Samples.r3 /\
    process_record Samples.item
      (digests_of (process Samples.item (take 2 Samples.aba))) Samples.r3
      = Ok (digests', Samples.aba_written 2) /\
    unwrap_target_uri Samples.r3 = Ok u.
Proof.
  destruct (C7_order_preserved Samples.item Samples.aba 2 (Samples.aba_written 2))
    as (record & d' & u & Hr & Hstep & Hu & _).
  - reflexivity.
  - injection Hr as <-. exists d', u. repeat split; done.
Defined.

(** C8, as the claim states it, fails: a warcinfo record with the
    target URI [<urn:x>] is written with another header than
    WARC-Filename changed: its WARC-Target-URI is [urn:x]. *)
Lemma C8_counterexample_bracketed_target_uri :
  get_header "WARC-Type" (rec_headers Samples.info_uri) = Some "warcinfo" /\
  get_header "WARC-Target-URI" (rec_headers Samples.info_uri) = Some "<urn:x>" /\
  ((get_header "WARC-Target-URI" ∘ rec_headers)
     <$> written (process Samples.item [Samples.info_uri])) = [Some "urn:x"].
Proof. vm_compute. repeat split. Qed.

(** C8 (amended): for every record whose WARC-Type is warcinfo and
    whose target URI is not rejected by the pattern, the turn of the loop
    leaves the dictionary, replaces the WARC-Filename header by the output
    file's name (the value then read under that name when the header is
    not repeated) and writes the record with its type, HTTP headers,
    payload and every header other than WARC-Filename and WARC-Target-URI
    unchanged; the target URI is unwrapped as for every record, so that
    without a target URI, or with one that does not start with [<], every
    other header is unchanged. *)
Theorem C8_warcinfo_filename item digests record :
  get_header "WARC-Type" (rec_headers record) = Some "warcinfo" ->
  ~ malformed_target_uri record ->
  exists u out,
    unwrap_target_uri record = Ok u /\
    process_record item digests record = Ok (digests, out) /\
    rec_headers out
      = replace_header "WARC-Filename" (Some (output_filename item))
          (rec_headers u) /\
    (count_header "WARC-Filename" (rec_headers record) <= 1 ->
     get_header "WARC-Filename" (rec_headers out) = Some (output_filename item)) /\
    (forall name,
       Py.lower name <> "warc-filename" -> Py.lower name <> "warc-target-uri" ->
       get_header name (rec_headers out) = get_header name (rec_headers record)) /\
    ((forall url, get_header "WARC-Target-URI" (rec_headers record) = Some url ->
                  Py.startswith_lt url = false) ->
     u = record) /\
    rec_type out = rec_type record /\
    http_headers out = http_headers record /\
    raw_stream out = raw_stream record.
Proof.
  intros Htype Hwf.
  destruct (unwrap_target_uri_ok _ Hwf) as [u Hu].
  assert (~ is_response record) as Hother
    by (unfold is_response; rewrite Htype; discriminate).
  eexists u, _. split; [done|].
  split.
  { rewrite (process_record_other _ _ _ _ Hu Hother).
    by rewrite decide_True by done. }
  destruct (unwrap_target_uri_frame _ _ Hu) as (Ht & Hh & Hs & Hget & Hcount).
  cbn [rec_headers with_headers rec_type http_headers raw_stream].
  repeat split; try done.
  - intros Hone. apply get_header_replace_eq. by rewrite Hcount.
  - intros name Hf Hu'. rewrite get_header_replace_ne by done. by apply Hget.
  - intros Hbare. unfold unwrap_target_uri in Hu.
    destruct (get_header "WARC-Target-URI" (rec_headers record)) as [url|];
      [|by simplify_eq].
    rewrite (Hbare url eq_refl) in Hu. by simplify_eq.
Qed.

Lemma C8_warcinfo_filename_witness :
  exists out,
    process_record Samples.item ∅ Samples.info = Ok (∅, out) /\
    get_header "WARC-Filename" (rec_headers out)
      = Some "data/abc/sketch-abc-20190622-deduplicated.warc.gz" /\
    raw_stream out = "software: Wget".
Proof.
  destruct (C8_warcinfo_filename Samples.item ∅ Samples.info)
    as (u & out & _ & Hstep & _ & Hname & _ & _ & _ & _ & Hraw).
  - reflexivity.
  - sample_wellformed.
  - exists out. split; [exact Hstep|]. split; [|exact Hraw].
    apply Hname. vm_compute. lia.
Defined.

(** C9, as the claim states it, fails: the revisit record written for
    the third record of the scenario carries the WARC-Record-ID of that
    third record, not a new one. *)
Lemma C9_counterexample_same_record_id :
  rec_type (Samples.aba_written 2) = Some "revisit" /\
  get_header "WARC-Record-ID" (rec_headers Samples.r3) = Some "<urn:uuid:3>" /\
  get_header "WARC-Record-ID" (rec_headers (Samples.aba_written 2))
    = Some "<urn:uuid:3>".
Proof. vm_compute. repeat split. Qed.

(** C9 (amended): the revisit record that the turn of the loop makes of
    a response record whose digest is in the dictionary carries the
    WARC-Record-ID and the WARC-Date of that response record itself. *)
Theorem C9_revisit_keeps_id_and_date item digests record e :
  is_response record ->
  digests !! payload_digest record = Some e ->
  ~ malformed_target_uri record ->
  exists out,
    process_record item digests record = Ok (digests, out) /\
    rec_type out = Some "revisit" /\
    get_header "WARC-Record-ID" (rec_headers out)
      = get_header "WARC-Record-ID" (rec_headers record) /\
    get_header "WARC-Date" (rec_headers out)
      = get_header "WARC-Date" (rec_headers record).
Proof.
  intros Hresp Hk Hwf.
  destruct (unwrap_target_uri_ok _ Hwf) as [u Hu].
  exists (_record_response_to_revisit u e).
  split; [by apply process_record_seen|]. split; [done|].
  destruct (revisit_record_id_date u e) as [-> ->].
  destruct (unwrap_target_uri_frame _ _ Hu) as (_ & _ & _ & Hget & _).
  split; apply Hget; names_differ.
Qed.

Lemma C9_revisit_keeps_id_and_date_witness :
  exists out,
    process_record Samples.item
      {[ Some "sha1:A" := entry_of (Samples.aba_written 0) ]} Samples.r3
      = Ok ({[ Some "sha1:A" := entry_of (Samples.aba_written 0) ]}, out) /\
    get_header "WARC-Record-ID" (rec_headers out) = Some "<urn:uuid:3>" /\
    get_header "WARC-Date" (rec_headers out) = Some "2019-06-22T03:00:00Z".
Proof.
  destruct (C9_revisit_keeps_id_and_date Samples.item
              {[ Some "sha1:A" := entry_of (Samples.aba_written 0) ]}
              Samples.r3 (entry_of (Samples.aba_written 0)))
    as (out & Hstep & _ & Hid & Hdate).
  - reflexivity.
  - vm_compute. reflexivity.
  - sample_wellformed.
  - exists out. split; [exact Hstep|]. split; [exact Hid|exact Hdate].
Defined.

Example re_lone_bracket : Py.re_search_group1 "<" = None.
Proof. reflexivity. Qed.

Example re_empty_brackets : Py.re_search_group1 "<>" = None.
Proof. reflexivity. Qed.

(** C10: when the record at position i has a WARC-Target-URI that
    starts with [<] and that the pattern [^<(.+)>$] does not match, the
    pass ends with an uncaught exception, and neither that record nor any
    record after it is written: nothing is written at a position from i
    on.  When the pass gets to that record, that is, when the pass over
    the i records before it completes, the exception is the AttributeError
    of line 210 and exactly the i records before it are written. *)
Theorem C10_rejected_target_uri_raises item records i record url :
  records !! i = Some record ->
  get_header "WARC-Target-URI" (rec_headers record) = Some url ->
  Py.startswith_lt url = true ->
  Py.re_search_group1 url = None ->
  is_Some (raised (process item records)) /\
  length (written (process item records)) <= i /\
  (forall j, i <= j -> written (process item records) !! j = None) /\
  (raised (process item (take i records)) = None ->
   raised (process item records) = Some AttributeError /\
   length (written (process item records)) = i).
Proof.
  intros Hi Hget Hlt Hre.
  assert (malformed_target_uri record) as Hbad by (by exists url).
  destruct (malformed_aborts item records ∅ i record Hi Hbad) as [Hraised Hlen].
  unfold process. repeat split; try done.
  - intros j Hj. apply lookup_ge_None. lia.
  - by apply (malformed_aborts_at item records ∅ i record).
  - by apply (malformed_aborts_at item records ∅ i record).
Qed.

Lemma C10_rejected_target_uri_raises_witness :
  raised (process Samples.item [Samples.r1; Samples.r3_open; Samples.r2])
    = Some AttributeError /\
  length (written (process Samples.item [Samples.r1; Samples.r3_open; Samples.r2]))
    = 1.
Proof.
  destruct (C10_rejected_target_uri_raises Samples.item
              [Samples.r1; Samples.r3_open; Samples.r2] 1
              Samples.r3_open "<http://u3/")
    as (_ & _ & _ & Hat); try reflexivity.
  apply Hat. vm_compute. reflexivity.
Defined.

(** ** More of the Deduplicate task *)

Lemma is_newline_eq c : Py.is_newline c = true -> c = "010"%char.
Proof. unfold Py.is_newline. by intros H%Ascii.eqb_eq. Qed.

Lemma match_tail_inv s :
  Py.match_tail s = true -> s = ">" \/ s = ">" ++ newline.
Proof.
  destruct s as [|c t]; [done|]. unfold Py.match_tail.
  destruct (Ascii.eqb_spec c ">"%char) as [->|Hne].
  - destruct t as [|c' [|c'' t']]; simpl; try done; [by left|].
    intros ->%is_newline_eq. by right.
  - intros H. exfalso.
    destruct c as [[] [] [] [] [] [] [] []]; try discriminate H.
    by apply Hne.
Qed.

Lemma dot_star_inv s g :
  Py.dot_star s = Some g ->
  Py.no_newline g = true /\ (s = g ++ ">" \/ s = g ++ ">" ++ newline).
Proof.
  revert g. induction s as [|c t IH]; intros g; cbn [Py.dot_star]; [done|].
  destruct (Py.is_newline c) eqn:Hc.
  - destruct (Py.match_tail (String c t)) eqn:Hm; [|done].
    apply match_tail_inv in Hm. apply is_newline_eq in Hc. subst c.
    destruct Hm as [Hm|Hm]; discriminate Hm.
  - destruct (Py.dot_star t) as [g'|].
    + intros [= <-]. destruct (IH g' eq_refl) as [Hnl Hs].
      split; [simpl; by rewrite Hc|].
      destruct Hs as [->| ->]; [by left|by right].
    + destruct (Py.match_tail (String c t)) eqn:Hm; [|done].
      intros [= <-]. split; [done|]. by apply match_tail_inv.
Qed.

Lemma dot_star_bracket_newline (g : string) :
  Py.no_newline g = true -> Py.dot_star (g ++ ">" ++ newline) = Some g.
Proof.
  induction g as [|c g IH]; [done|]. simpl.
  intros [Hc Hg]%andb_prop.
  destruct (Py.is_newline c); [done|].
  by rewrite IH.
Qed.

(** X1: the search for [^<(.+)>$] succeeds exactly on the values made of
    [<], a body that is not empty and holds no newline, [>], and
    possibly one newline after it; group 1 is the body. *)
Theorem X1_pattern_matches_exactly url g :
  Py.re_search_group1 url = Some g <->
  g <> "" /\ Py.no_newline g = true /\
  (url = "<" ++ g ++ ">" \/ url = "<" ++ g ++ ">" ++ newline).
Proof.
  split.
  - destruct url as [|a t]; [done|]. unfold Py.re_search_group1.
    destruct (Ascii.eqb_spec a "<"%char) as [->|Hne].
    + destruct t as [|c t']; [done|]. cbn [Py.dot_plus].
      destruct (Py.is_newline c) eqn:Hc; [done|].
      destruct (Py.dot_star t') as [g'|] eqn:Hg; [|done].
      intros [= <-]. apply dot_star_inv in Hg as [Hnl Hs].
      split; [done|]. split; [simpl; by rewrite Hc|].
      destruct Hs as [->| ->]; [by left|by right].
    + intros H. exfalso.
      destruct a as [[] [] [] [] [] [] [] []]; try discriminate H.
      by apply Hne.
  - intros (Hne & Hnl & [->| ->]); [by apply re_search_bracket|].
    destruct g as [|c g]; [done|].
    simpl in Hnl. apply andb_prop in Hnl as [Hc Hg].
    change (Py.re_search_group1 ("<" ++ String c g ++ ">" ++ newline))
      with (Py.dot_plus (String c (g ++ ">" ++ newline))).
    cbn [Py.dot_plus]. destruct (Py.is_newline c); [done|].
    by rewrite dot_star_bracket_newline.
Qed.

(** X2: a pass over two inputs put end to end is the pass over the
    first, and, when that one completes, the pass over the second
    continued from the dictionary that the first left: the records of the
    second are written after those of the first. *)
Theorem X2_pass_over_concatenation item digests l1 l2 :
  process_from item digests (l1 ++ l2)%list =
  let p1 := process_from item digests l1 in
  match raised p1 with
  | Some _ => p1
  | None =>
      let p2 := process_from item (digests_of p1) l2 in
      mkPass (written p1 ++ written p2)%list (digests_of p2) (raised p2)
  end.
Proof.
  revert digests. induction l1 as [|r rest IH]; intros m.
  - cbn [process_from raised written digests_of]. cbv zeta.
    rewrite !app_nil_l. destruct (process_from item m l2) as [w d x].
    reflexivity.
  - rewrite <- app_comm_cons, !process_from_cons.
    destruct (process_turn item m r) as [[m' w]|e]; [|done].
    cbv zeta. rewrite IH. cbv zeta. cbn [raised written digests_of].
    by destruct (process_from item m' rest) as [w1 d1 [e1|]].
Qed.

(** X3: when a record with a rejected target URI stands after the
    records [before], and the pass over [before] alone completes, the
    pass raises AttributeError and has written exactly what the pass over
    [before] writes: one record for each record of [before], and the
    dictionary is the one that pass leaves. *)
Theorem X3_abort_keeps_the_prefix item before bad after :
  raised (process item before) = None ->
  malformed_target_uri bad ->
  let p := process item (before ++ bad :: after) in
  raised p = Some AttributeError /\
  written p = written (process item before) /\
  length (written p) = length before /\
  digests_of p = digests_of (process item before).
Proof.
  intros Hdone Hbad p. subst p. unfold process in *.
  rewrite process_from_app. cbv zeta.
  pose proof (completed_length item before ∅ Hdone) as Hlen.
  rewrite Hdone. rewrite process_from_cons.
  apply unwrap_target_uri_raise in Hbad.
  rewrite (process_turn_raise _ _ _ _ (process_record_raise _ _ _ _ Hbad)).
  cbn [raised written digests_of]. rewrite app_nil_r. done.
Qed.

Lemma X3_abort_keeps_the_prefix_witness :
  let p := process Samples.item ([Samples.r1; Samples.r2] ++ Samples.r3_open :: [Samples.r3]) in
  raised p = Some AttributeError /\
  written p = written (process Samples.item [Samples.r1; Samples.r2]) /\
  length (written p) = 2.
Proof.
  destruct (X3_abort_keeps_the_prefix Samples.item
              [Samples.r1; Samples.r2] Samples.r3_open [Samples.r3])
    as (Hraised & Hwritten & Hlen & _).
  - vm_compute. reflexivity.
  - exists "<http://u3/". repeat split; reflexivity.
  - split; [exact Hraised|]. split; [exact Hwritten|exact Hlen].
Defined.

(** X4: what the dictionary holds under a key when the pass ends is the
    (WARC-Record-ID, WARC-Date, WARC-Target-URI) of the record written
    for the first response record with that digest, and nothing when no
    response record that the pass got to has the digest. *)
Theorem X4_index_holds_first_occurrences item records k :
  digests_of (process item records) !! k
    = (fun p => entry_of p.2) <$> head (exchanged_for item k records).
Proof.
  unfold process, exchanged_for, exchanged.
  by rewrite index_lookup_from, lookup_empty.
Qed.

Lemma process_from_keeps item k e records : forall digests,
  digests !! k = Some e ->
  digests_of (process_from item digests records) !! k = Some e.
Proof. intros m Hm. by rewrite index_lookup_from, Hm. Qed.

(** X5: an entry that the dictionary holds after the first i records is
    the entry it holds under that key at the end of the pass: entries
    are neither replaced nor removed. *)
Theorem X5_index_entries_stay item records i k e :
  digests_of (process item (take i records)) !! k = Some e ->
  digests_of (process item records) !! k = Some e.
Proof.
  intros Hk. unfold process in *.
  rewrite <- (take_drop i records) at 1.
  rewrite process_from_app. cbv zeta.
  destruct (raised (process_from item ∅ (take i records))); [done|].
  cbn [digests_of]. by apply process_from_keeps.
Qed.

Lemma X5_index_entries_stay_witness :
  digests_of (process Samples.item Samples.aba) !! Some "sha1:A"
    = Some (Some "<urn:uuid:1>", Some "2019-06-22T01:00:00Z", Some "http://u1/").
Proof.
  apply (X5_index_entries_stay Samples.item Samples.aba 1).
  vm_compute. reflexivity.
Defined.

(** X6: after a pass that completes, that is, ends without an
    exception, the keys of the dictionary are exactly the digests of the
    response records of the input (the [None] of a record without the
    header among them), and the dictionary has one entry for each distinct
    one. *)
Theorem X6_index_keys_are_the_digests item records :
  raised (process item records) = None ->
  (forall k, is_Some (digests_of (process item records) !! k) <->
             k ∈ response_digests records) /\
  size (digests_of (process item records))
    = length (remove_dups (response_digests records)).
Proof.
  intros Hwf.
  assert (forall k, is_Some (digests_of (process item records) !! k) <->
                    k ∈ response_digests records) as Hkeys.
  { intros k. rewrite index_lookup.
    rewrite fmap_is_Some. unfold response_digests.
    rewrite <- (exchanged_fst_completed item records Hwf) at 2.
    unfold exchanged_for. split.
    - intros [[r w] Hhead]. apply head_Some_elem_of in Hhead.
      apply list_elem_of_filter in Hhead as [[Hresp Hkey] Hin].
      cbn [fst] in *. apply list_elem_of_fmap. exists r. split; [done|].
      apply list_elem_of_filter. split; [done|].
      apply list_elem_of_fmap. by exists (r, w).
    - intros (r & -> & Hin)%list_elem_of_fmap.
      apply list_elem_of_filter in Hin as [Hresp Hin].
      apply list_elem_of_fmap in Hin as ([r' w] & -> & Hin). cbn [fst] in *.
      assert ((r', w) ∈ filter (fun p => is_response_with (payload_digest r') p.1)
                         (exchanged item records)) as Hf.
      { apply list_elem_of_filter. by split. }
      destruct (filter _ (exchanged item records)) as [|p l]; [inversion Hf|].
      by exists p. }
  split; [done|].
  rewrite <- size_dom.
  assert (dom (digests_of (process item records))
          = list_to_set (remove_dups (response_digests records))) as ->.
  { apply set_eq. intros k.
    rewrite elem_of_dom, Hkeys, elem_of_list_to_set, elem_of_remove_dups. done. }
  apply size_list_to_set, NoDup_remove_dups.
Qed.

Lemma X6_index_keys_are_the_digests_witness :
  size (digests_of (process Samples.item Samples.aba)) = 2.
Proof.
  destruct (X6_index_keys_are_the_digests Samples.item Samples.aba) as [_ Hsize].
  - vm_compute. reflexivity.
  - exact Hsize.
Defined.

Lemma response_digests_app l1 l2 :
  response_digests (l1 ++ l2)%list
    = (response_digests l1 ++ response_digests l2)%list.
Proof. unfold response_digests. by rewrite filter_app, fmap_app. Qed.

(** A response record at position i whose digest no earlier response
    record has finds nothing under its digest. *)
Lemma fresh_digest_not_indexed item records i record :
  records !! i = Some record ->
  is_response record ->
  payload_digest record ∉ response_digests (take i records) ->
  digests_of (process item (take i records)) !! payload_digest record = None.
Proof.
  intros Hi Hresp Hfresh.
  rewrite index_lookup.
  destruct (head _) as [[r w]|] eqn:Hhead; [|done]. exfalso.
  apply head_Some_elem_of in Hhead. unfold exchanged_for in Hhead.
  apply list_elem_of_filter in Hhead as [[Hr Hk] Hin]. cbn [fst] in *.
  apply Hfresh. unfold response_digests.
  apply list_elem_of_fmap. exists r. split; [done|].
  apply list_elem_of_filter. split; [done|].
  unfold exchanged, exchanged_from in Hin.
  by apply elem_of_zip_l in Hin.
Qed.

(** X7: in an input whose response records have pairwise distinct
    digests (and at most one of them has none) no record is converted:
    every record written is the record read with its target URI
    unwrapped, and with its WARC-Filename replaced when it is a warcinfo
    record. *)
Theorem X7_distinct_digests_nothing_converted item records i record out :
  NoDup (response_digests records) ->
  records !! i = Some record ->
  written (process item records) !! i = Some out ->
  exists u,
    unwrap_target_uri record = Ok u /\
    out = if decide (is_warcinfo record)
          then with_headers u
                 (replace_header "WARC-Filename" (Some (output_filename item))
                    (rec_headers u))
          else u.
Proof.
  intros Hnodup Hi Hout. unfold process in Hout.
  apply written_lookup in Hout as (r & d' & Hr & Hstep).
  rewrite Hi in Hr. injection Hr as <-.
  destruct (unwrap_target_uri record) as [u|x] eqn:Hu;
    [|by rewrite (process_record_raise _ _ _ _ Hu) in Hstep].
  exists u. split; [done|].
  destruct (decide (is_response record)) as [Hresp|Hresp].
  - assert (payload_digest record ∉ response_digests (take i records)) as Hfresh.
    { rewrite <- (take_drop_middle records i record Hi) in Hnodup.
      rewrite response_digests_app in Hnodup.
      apply NoDup_app in Hnodup as (_ & Hdisj & _).
      intros Hin. apply (Hdisj _ Hin). unfold response_digests.
      rewrite filter_cons_True by done. rewrite fmap_cons. left. }
    pose proof (fresh_digest_not_indexed item records i record Hi Hresp Hfresh)
      as Hnone.
    unfold process in Hnone.
    rewrite (process_record_new _ _ _ _ Hu Hresp Hnone) in Hstep.
    simplify_eq. rewrite decide_False; [done|].
    unfold is_warcinfo, is_response in *. rewrite Hresp. discriminate.
  - rewrite (process_record_other _ _ _ _ Hu Hresp) in Hstep. simplify_eq.
    unfold is_warcinfo. by destruct (decide _).
Qed.

Lemma X7_distinct_digests_nothing_converted_witness :
  exists u,
    unwrap_target_uri Samples.r2 = Ok u /\
    written (process Samples.item [Samples.r1; Samples.r2]) !! 1 = Some u.
Proof.
  destruct (X7_distinct_digests_nothing_converted Samples.item
              [Samples.r1; Samples.r2] 1 Samples.r2
              (default Samples.r2
                 (written (process Samples.item [Samples.r1; Samples.r2]) !! 1)))
    as (u & Hu & Hout).
  - apply (bool_decide_unpack _). vm_compute. exact I.
  - reflexivity.
  - reflexivity.
  - exists u. split; [exact Hu|].
    transitivity
      (Some (default Samples.r2
               (written (process Samples.item [Samples.r1; Samples.r2]) !! 1)));
      [reflexivity|].
    rewrite Hout. reflexivity.
Defined.

(** X8: the pass never touches the HTTP headers of a record, and it
    keeps the type and the payload stream of every record but those it
    converts: a written record either has the type and the payload of the
    record read, or it is made from a response record, has the type
    revisit and an empty payload. *)
Theorem X8_http_headers_and_payload item records i record out :
  records !! i = Some record ->
  written (process item records) !! i = Some out ->
  http_headers out = http_headers record /\
  (rec_type out = rec_type record /\ raw_stream out = raw_stream record \/
   is_response record /\ rec_type out = Some "revisit" /\ raw_stream out = "").
Proof.
  intros Hi Hout. unfold process in Hout.
  apply written_lookup in Hout as (r & d' & Hr & Hstep).
  rewrite Hi in Hr. injection Hr as <-.
  destruct (unwrap_target_uri record) as [u|x] eqn:Hu;
    [|by rewrite (process_record_raise _ _ _ _ Hu) in Hstep].
  destruct (unwrap_target_uri_frame _ _ Hu) as (Ht & Hh & Hs & _).
  destruct (decide (is_response record)) as [Hresp|Hresp].
  - destruct (digests_of (process_from item ∅ (take i records))
                !! payload_digest record) as [e|] eqn:Hd.
    + rewrite (process_record_seen _ _ _ _ _ Hu Hresp Hd) in Hstep.
      simplify_eq. split; [done|]. right. by repeat split.
    + rewrite (process_record_new _ _ _ _ Hu Hresp Hd) in Hstep.
      simplify_eq. split; [done|]. by left.
  - rewrite (process_record_other _ _ _ _ Hu Hresp) in Hstep. simplify_eq.
    destruct (decide _); (split; [done|]); by left.
Qed.

Lemma X8_http_headers_and_payload_witness :
  http_headers (Samples.aba_written 2) = http_headers Samples.r3 /\
  raw_stream (Samples.aba_written 0) = raw_stream Samples.r1.
Proof.
  destruct (X8_http_headers_and_payload Samples.item Samples.aba 2
              Samples.r3 (Samples.aba_written 2)) as [Hhttp _];
    [reflexivity|reflexivity|].
  split; [exact Hhttp|reflexivity].
Defined.

(** X9: a record read with at most one WARC-Target-URI header is
    written, whatever its type and whether converted or not, with the
    unwrapped value of that header as its target URI (and without one
    when it had none). *)
Theorem X9_written_target_uri_is_unwrapped item records i record out :
  records !! i = Some record ->
  written (process item records) !! i = Some out ->
  count_header "WARC-Target-URI" (rec_headers record) <= 1 ->
  unwrap (get_header "WARC-Target-URI" (rec_headers record))
    = Ok (get_header "WARC-Target-URI" (rec_headers out)).
Proof.
  intros Hi Hout Hone. unfold process in Hout.
  apply written_lookup in Hout as (r & d' & Hr & Hstep).
  rewrite Hi in Hr. injection Hr as <-.
  destruct (process_record_shape _ _ _ _ _ Hstep) as (u & Hu & Hshape).
  assert (unwrap (get_header "WARC-Target-URI" (rec_headers record))
          = Ok (get_header "WARC-Target-URI" (rec_headers u))) as Hunwrap.
  { unfold unwrap_target_uri in Hu.
    destruct (get_header "WARC-Target-URI" (rec_headers record)) as [url|] eqn:Hget;
      [|simplify_eq; by rewrite Hget].
    destruct (Py.startswith_lt url) eqn:Hlt;
      [|simplify_eq; rewrite Hget; unfold unwrap; by rewrite Hlt].
    destruct (unwrap (Some url)) as [url'|x] eqn:Hun; [|done].
    cbn [mbind result_bind] in Hu. simplify_eq. cbn [rec_headers with_headers].
    by rewrite get_header_replace_eq. }
  rewrite Hunwrap. f_equal.
  destruct Hshape as [->|[->|[e ->]]]; [done| |].
  - cbn [rec_headers with_headers].
    rewrite get_header_replace_ne; [done|names_differ].
  - rewrite revisit_get_other; [done|].
    unfold revisit_fields. repeat constructor; names_differ.
Qed.

Lemma X9_written_target_uri_is_unwrapped_witness :
  unwrap (get_header "WARC-Target-URI" (rec_headers Samples.r3))
    = Ok (get_header "WARC-Target-URI" (rec_headers (Samples.aba_written 2))) /\
  get_header "WARC-Target-URI" (rec_headers (Samples.aba_written 2))
    = Some "http://u3/".
Proof.
  split; [|reflexivity].
  apply (X9_written_target_uri_is_unwrapped Samples.item Samples.aba 2
           Samples.r3 (Samples.aba_written 2));
    [reflexivity|reflexivity|vm_compute; lia].
Defined.

Lemma string_app_inv_head (a b c : string) : a ++ b = a ++ c -> b = c.
Proof. induction a as [|x a IH]; simpl; [done|]. intros [= H]. by apply IH. Qed.

Lemma string_app_length (a b : string) :
  String.length (a ++ b) = String.length a + String.length b.
Proof. induction a as [|x a IH]; simpl; [done|]. by rewrite IH. Qed.

(** X10: the file that the task writes is never the file that it
    reads, whatever the item: the two names differ, and both lie in the
    item's directory. *)
Theorem X10_output_file_is_not_the_input item :
  input_filename item <> output_filename item /\
  (exists name, input_filename item = item_dir item ++ "/" ++ name) /\
  (exists name, output_filename item = item_dir item ++ "/" ++ name).
Proof.
  unfold input_filename, output_filename. split; [|by eauto].
  intros H. do 3 apply string_app_inv_head in H. discriminate H.
Qed.

(** ** CheckIP: the counter and the check *)

Lemma size_list_to_set_le (l : list string) :
  size (list_to_set l : gset string) <= length l.
Proof.
  induction l as [|x l IH]; [done|]. rewrite list_to_set_cons.
  pose proof (size_union_alt {[x]} (list_to_set l : gset string)) as Hu.
  rewrite size_singleton in Hu.
  pose proof (subseteq_size (list_to_set l ∖ {[x]}) (list_to_set l : gset string))
    as Hd.
  specialize (Hd ltac:(set_solver)). simpl. lia.
Qed.

Lemma size_list_to_set_NoDup (l : list string) :
  size (list_to_set l : gset string) = length l <-> NoDup l.
Proof.
  split; [|apply size_list_to_set].
  induction l as [|x l IH]; [constructor|].
  rewrite list_to_set_cons. simpl. intros Hsize.
  destruct (decide (x ∈ l)) as [Hin|Hin].
  - assert ({[x]} ∪ list_to_set l = (list_to_set l : gset string)) as Heq
      by set_solver.
    rewrite Heq in Hsize. pose proof (size_list_to_set_le l). lia.
  - rewrite size_union in Hsize by set_solver.
    rewrite size_singleton in Hsize.
    constructor; [done|]. apply IH. lia.
Qed.

Lemma add_all_resolved (gethostbyname : string -> option string) names :
  forall ip_set ips,
  gethostbyname <$> names = Some <$> ips ->
  CheckIP.add_all gethostbyname names ip_set = inr (ip_set ∪ list_to_set ips).
Proof.
  induction names as [|h names IH]; intros s ips Hips.
  - destruct ips; [|done]. simpl. f_equal. set_solver.
  - destruct ips as [|ip ips]; [done|].
    rewrite !fmap_cons in Hips. injection Hips as Hh Hrest.
    simpl. rewrite Hh, (IH _ ips Hrest). f_equal. set_solver.
Qed.

Lemma add_all_unresolved (gethostbyname : string -> option string) names :
  forall ip_set,
  ~ Forall (fun h => is_Some (gethostbyname h)) names ->
  exists h, CheckIP.add_all gethostbyname names ip_set = inl (gaierror h).
Proof.
  induction names as [|h names IH]; intros s Hnot.
  - destruct Hnot. constructor.
  - simpl. destruct (gethostbyname h) as [ip|] eqn:Hh; [|eauto].
    apply IH. intros Hall. apply Hnot. constructor; [by rewrite Hh|done].
Qed.

Lemma all_resolved (gethostbyname : string -> option string)
    (names : list string) :
  Forall (fun h => is_Some (gethostbyname h)) names ->
  exists ips, gethostbyname <$> names = Some <$> ips.
Proof.
  induction 1 as [|h names [ip Hh] _ [ips IH]]; [by exists []|].
  exists (ip :: ips). by rewrite !fmap_cons, Hh, IH.
Qed.

(** X11: a call made with a counter that is not positive does not raise
    exactly when the six lookups all answer and the six addresses are
    pairwise different. *)
Theorem X11_check_passes_iff_six_addresses
    (gethostbyname : string -> option string) (c : Z) :
  (c <= 0)%Z ->
  CheckIP.failure (CheckIP.process gethostbyname c) = None <->
  Forall (fun h => is_Some (gethostbyname h)) CheckIP.hosts /\
  NoDup (gethostbyname <$> CheckIP.hosts).
Proof.
  intros Hc. unfold CheckIP.process. rewrite !decide_True by done.
  destruct (decide (Forall (fun h => is_Some (gethostbyname h)) CheckIP.hosts))
    as [Hall|Hnot].
  - destruct (all_resolved _ _ Hall) as [ips Hips].
    rewrite (add_all_resolved _ _ ∅ ips Hips).
    assert (length ips = 6) as Hlen.
    { apply (f_equal length) in Hips. rewrite !length_fmap in Hips. done. }
    rewrite Hips, (NoDup_fmap Some ips), <- size_list_to_set_NoDup, Hlen.
    rewrite (left_id_L ∅ (∪)).
    destruct (decide (size (list_to_set ips : gset string) <> 6)) as [Hs|Hs];
      cbn [snd fst CheckIP.failure]; split; try done.
    + intros [_ Heq]. done.
    + intros _. split; [done|]. by apply dec_stable.
  - destruct (add_all_unresolved gethostbyname CheckIP.hosts ∅ Hnot) as [h ->].
    cbn [snd fst CheckIP.failure]. split; [done|]. by intros [? _].
Qed.

Lemma X11_check_passes_iff_six_addresses_witness :
  CheckIP.failure (CheckIP.process (fun h => Some h) 0) = None.
Proof.
  apply (X11_check_passes_iff_six_addresses (fun h => Some h) 0); [lia|].
  split.
  - apply (bool_decide_unpack _). vm_compute. exact I.
  - apply (bool_decide_unpack _). vm_compute. exact I.
Defined.

Lemma process_positive (gethostbyname : string -> option string) (c : Z) :
  (0 < c)%Z ->
  CheckIP.process gethostbyname c = CheckIP.mkOutcome (c - 1) [] None.
Proof.
  intros Hc. unfold CheckIP.process. rewrite !decide_False by lia. done.
Qed.

Lemma process_passed (gethostbyname : string -> option string) (c : Z) :
  (c <= 0)%Z ->
  CheckIP.failure (CheckIP.process gethostbyname c) = None ->
  CheckIP.counter (CheckIP.process gethostbyname c) = 10%Z.
Proof.
  intros Hc. unfold CheckIP.process. rewrite !decide_True by done.
  destruct (CheckIP.add_all _ _ _) as [e|ip_set]; [done|].
  by destruct (decide _).
Qed.

Lemma calls_without_check resolvers : forall c : Z,
  (Z.of_nat (length resolvers) <= c)%Z ->
  Forall (fun o => CheckIP.failure o = None /\ CheckIP.logged o = [])
    (CheckIP.calls resolvers c) /\
  CheckIP.counter_after resolvers c = (c - Z.of_nat (length resolvers))%Z.
Proof.
  unfold CheckIP.counter_after.
  induction resolvers as [|g rest IH]; intros c Hc.
  - split; [constructor|]. simpl. lia.
  - cbn [length] in Hc. cbn [CheckIP.calls foldl].
    rewrite process_positive by lia. cbn [CheckIP.counter].
    destruct (IH (c - 1)%Z) as [Hall Hafter]; [lia|].
    split; [by constructor|]. rewrite Hafter. cbn [length]. lia.
Qed.

(** A call with a counter that is not positive makes the check: its
    first line in the log announces it. *)
Lemma process_checks (gethostbyname : string -> option string) (c : Z) :
  (c <= 0)%Z ->
  head (CheckIP.logged (CheckIP.process gethostbyname c))
    = Some (CheckIP.Line "Checking IP address.").
Proof.
  intros Hc. unfold CheckIP.process. rewrite !decide_True by done.
  destruct (CheckIP.add_all _ _ _) as [x|ip_set]; [done|].
  by destruct (decide _).
Qed.

(** X12: a call with a counter that is not positive makes the check.
    After such a call that did not raise, the next calls, up to ten of
    them, look nothing up, log nothing and do not raise, whatever the
    lookups would answer, and each takes one off the counter: after ten of
    them the counter is 0 again and the call after them, the eleventh,
    makes the check again, whatever its lookups answer. *)
Theorem X12_check_every_eleventh_call
    (gethostbyname next : string -> option string) (c : Z)
    (resolvers : list (string -> option string)) :
  (c <= 0)%Z ->
  CheckIP.failure (CheckIP.process gethostbyname c) = None ->
  length resolvers <= 10 ->
  let c' := CheckIP.counter (CheckIP.process gethostbyname c) in
  head (CheckIP.logged (CheckIP.process gethostbyname c))
    = Some (CheckIP.Line "Checking IP address.") /\
  c' = 10%Z /\
  Forall (fun o => CheckIP.failure o = None /\ CheckIP.logged o = [])
    (CheckIP.calls resolvers c') /\
  CheckIP.counter_after resolvers c' = (10 - Z.of_nat (length resolvers))%Z /\
  (length resolvers = 10 ->
   head (CheckIP.logged
           (CheckIP.process next (CheckIP.counter_after resolvers c')))
     = Some (CheckIP.Line "Checking IP address.")) /\
  (length resolvers < 10 ->
   CheckIP.logged (CheckIP.process next (CheckIP.counter_after resolvers c'))
     = []).
Proof.
  intros Hc Hpass Hlen c'. subst c'.
  split; [by apply process_checks|].
  rewrite (process_passed _ _ Hc Hpass). split; [done|].
  destruct (calls_without_check resolvers 10) as [Hall Hafter]; [lia|].
  split; [done|]. split; [done|]. rewrite Hafter. split.
  - intros Hten. apply process_checks. lia.
  - intros Hless. by rewrite process_positive by lia.
Qed.

Lemma X12_check_every_eleventh_call_witness :
  CheckIP.counter_after (replicate 10 (fun _ : string => None))
    (CheckIP.counter (CheckIP.process (fun h => Some h) 0)) = 0%Z /\
  head (CheckIP.logged
          (CheckIP.process (fun _ : string => None)
             (CheckIP.counter_after (replicate 10 (fun _ : string => None))
                (CheckIP.counter (CheckIP.process (fun h => Some h) 0)))))
    = Some (CheckIP.Line "Checking IP address.").
Proof.
  destruct (X12_check_every_eleventh_call (fun h => Some h)
              (fun _ : string => None) 0
              (replicate 10 (fun _ : string => None)))
    as (_ & _ & _ & Hafter & Hnext & _).
  - lia.
  - vm_compute. reflexivity.
  - vm_compute. lia.
  - split; [exact Hafter|]. apply Hnext. reflexivity.
Defined.

(** X13: a call that raises leaves the counter as it was, and the
    counter was not positive: the next call makes the check again. *)
Theorem X13_failed_check_is_repeated
    (gethostbyname next : string -> option string) (c : Z) :
  is_Some (CheckIP.failure (CheckIP.process gethostbyname c)) ->
  CheckIP.counter (CheckIP.process gethostbyname c) = c /\
  (c <= 0)%Z /\
  head (CheckIP.logged
          (CheckIP.process next
             (CheckIP.counter (CheckIP.process gethostbyname c))))
    = Some (CheckIP.Line "Checking IP address.").
Proof.
  intros [e He].
  destruct (decide (c <= 0)%Z) as [Hc|Hc];
    [|by rewrite process_positive in He by lia].
  assert (CheckIP.counter (CheckIP.process gethostbyname c) = c) as Hsame.
  { unfold CheckIP.process in *. rewrite !decide_True in * by done.
    destruct (CheckIP.add_all _ _ _) as [x|ip_set]; [done|].
    by destruct (decide _). }
  rewrite Hsame. repeat split; [done|].
  unfold CheckIP.process. rewrite !decide_True by done.
  destruct (CheckIP.add_all next _ _) as [x|ip_set]; [done|].
  by destruct (decide _).
Qed.

Lemma X13_failed_check_is_repeated_witness :
  CheckIP.counter (CheckIP.process (fun _ => Some "10.0.0.1") 0) = 0%Z.
Proof.
  destruct (X13_failed_check_is_repeated
              (fun _ => Some "10.0.0.1") (fun h => Some h) 0) as [Hc _].
  - vm_compute. eauto.
  - exact Hc.
Defined.

Lemma process_counter_range (gethostbyname : string -> option string) (c : Z) :
  (0 <= c <= 10)%Z ->
  (0 <= CheckIP.counter (CheckIP.process gethostbyname c) <= 10)%Z.
Proof.
  intros Hc. unfold CheckIP.process.
  destruct (decide (c <= 0)%Z) as [H0|H0].
  - destruct (CheckIP.add_all _ _ _) as [x|ip_set]; cbn; [lia|].
    destruct (decide _); cbn; lia.
  - cbn. lia.
Qed.

(** X14: from the counter that [__init__] sets, whatever the lookups
    answer and whichever calls raise, the counter stays between 0 and
    10 after every call. *)
Theorem X14_counter_stays_in_range
    (resolvers : list (string -> option string)) :
  Forall (fun o => (0 <= CheckIP.counter o <= 10)%Z)
    (CheckIP.calls resolvers CheckIP.init_counter).
Proof.
  assert (forall c : Z, (0 <= c <= 10)%Z ->
            Forall (fun o => (0 <= CheckIP.counter o <= 10)%Z)
              (CheckIP.calls resolvers c)) as H.
  { induction resolvers as [|g rest IH]; intros c Hc; [constructor|].
    cbn [CheckIP.calls]. pose proof (process_counter_range g c Hc).
    constructor; [done|]. by apply IH. }
  apply H. unfold CheckIP.init_counter. lia.
Qed.

(** ** WgetArgs: the item name and the argument list *)

Lemma split_colon_some s a b :
  WgetArgs.split_colon s = (a, Some b) <->
  WgetArgs.no_colon a = true /\ s = a ++ ":" ++ b.
Proof.
  revert a. induction s as [|c t IH]; intros a; cbn [WgetArgs.split_colon].
  - split; [done|]. intros [_ H]. by destruct a.
  - destruct (Ascii.eqb_spec c ":"%char) as [->|Hc].
    + split.
      * by intros [= <- <-].
      * intros [Ha H]. destruct a as [|x a]; simpl in Ha, H.
        { by injection H as ->. }
        injection H as <- _. done.
    + destruct (WgetArgs.split_colon t) as [a' o]. cbn [fst snd].
      split.
      * intros [= <- ->]. destruct (IH a') as [IH1 _].
        destruct (IH1 eq_refl) as [Ha ->].
        split; [|done]. simpl. rewrite Ha.
        by destruct (Ascii.eqb_spec c ":"%char).
      * intros [Ha H]. destruct a as [|x a]; simpl in H.
        { injection H as -> _. done. }
        injection H as <- ->. simpl in Ha. apply andb_prop in Ha as [_ Ha].
        destruct (IH a) as [_ IH2].
        specialize (IH2 (conj Ha eq_refl)). by injection IH2 as -> ->.
Qed.

Lemma split_colon_none s a :
  WgetArgs.split_colon s = (a, None) <->
  WgetArgs.no_colon s = true /\ a = s.
Proof.
  revert a. induction s as [|c t IH]; intros a; cbn [WgetArgs.split_colon].
  - split; [by intros [= <-]|by intros [_ ->]].
  - simpl. destruct (Ascii.eqb_spec c ":"%char) as [->|Hc]; simpl.
    + split; [done|]. by intros [? _].
    + destruct (WgetArgs.split_colon t) as [a' o]. cbn [fst snd].
      split.
      * intros [= <- ->]. destruct (IH a') as [IH1 _].
        destruct (IH1 eq_refl) as [Ht ->]. done.
      * intros [Hn ->]. destruct (IH t) as [_ IH2].
        specialize (IH2 (conj Hn eq_refl)). by injection IH2 as -> ->.
Qed.

(** X15: splitting an item name at its first colon and joining the two
    parts with a colon gives the name back; the first part holds no
    colon, and a first part without a colon joined to any second part is
    split into those two; a name is left in one part exactly when it
    holds no colon. *)
Theorem X15_split_item_name :
  (forall s a b,
     WgetArgs.split_colon s = (a, Some b) <->
     WgetArgs.no_colon a = true /\ s = a ++ ":" ++ b) /\
  (forall s a,
     WgetArgs.split_colon s = (a, None) <->
     WgetArgs.no_colon s = true /\ a = s).
Proof. split; [apply split_colon_some|apply split_colon_none]. Qed.

Lemma no_colon_with_colon a b : WgetArgs.no_colon (a ++ ":" ++ b) = false.
Proof.
  induction a as [|c a IH]; [done|]. simpl. rewrite IH.
  by destruct (negb _).
Qed.

(** X16: for an item whose name is not [disco:] followed by a value,
    [realize] fetches nothing and prints nothing, and raises: ValueError
    when the name holds no colon (the item is then left as it was), and
    the exception Unknown item when it holds one. *)
Theorem X16_only_disco_items_are_fetched
    (WGET_LUA USER_AGENT : string) (bind_address : option string)
    (fetch : string -> option string) (item : item_dict) (name : string) :
  item !! "item_name" = Some name ->
  (forall value, name <> "disco:" ++ value) ->
  let o := WgetArgs.realize WGET_LUA USER_AGENT bind_address fetch item in
  WgetArgs.fetched o = [] /\
  WgetArgs.printed o = [] /\
  WgetArgs.returned o
    = inl (if WgetArgs.no_colon name then ValueError
           else Exception "Unknown item") /\
  (WgetArgs.no_colon name = true -> WgetArgs.item_after o = item).
Proof.
  intros Hname Hother o. subst o. unfold WgetArgs.realize. rewrite Hname.
  destruct (WgetArgs.split_colon name) as [a [b|]] eqn:Hsplit.
  - apply split_colon_some in Hsplit as [Ha ->].
    rewrite no_colon_with_colon.
    destruct (decide (a = "disco")) as [->|Hne]; [by destruct (Hother b)|].
    by repeat split.
  - apply split_colon_none in Hsplit as [Hn ->]. rewrite Hn.
    by repeat split.
Qed.

Lemma X16_only_disco_items_are_fetched_witness :
  let o := WgetArgs.realize "wget-lua" "agent" None (fun _ => Some "")
             {[ "item_name" := "user:42" ]} in
  WgetArgs.fetched o = [] /\
  WgetArgs.returned o = inl (Exception "Unknown item").
Proof.
  destruct (X16_only_disco_items_are_fetched "wget-lua" "agent" None
              (fun _ => Some "") {[ "item_name" := "user:42" ]} "user:42")
    as (Hf & _ & Hr & _).
  - reflexivity.
  - intros value H. discriminate H.
  - split; [exact Hf|exact Hr].
Defined.

Lemma string_app_nil_r (a : string) : a ++ "" = a.
Proof.
  induction a as [|x a IH]; [done|].
  change (String x (a ++ "") = String x a). by f_equal.
Qed.

Lemma string_app_assoc (a b c : string) : (a ++ b) ++ c = a ++ (b ++ c).
Proof.
  induction a as [|x a IH]; [done|].
  change (String x ((a ++ b) ++ c) = String x (a ++ (b ++ c))). by f_equal.
Qed.

(** X17: for an item named [disco:] followed by a value, with its
    directory and its file base set, and a fetch that answers,
    [realize] fetches the one URL made of the address and the value, sets
    the item's type and value, and returns an argument list in which
    [--warc-file] is followed by the directory and the base joined by a
    slash, the name that with [.warc.gz] is the file the Deduplicate task
    reads; with a bind address the list ends with [--bind-address] and
    the address. *)
Theorem X17_disco_item_arguments
    (WGET_LUA USER_AGENT : string) (bind_address : option string)
    (fetch : string -> option string) (item : item_dict)
    (value dir base body : string) :
  item !! "item_name" = Some ("disco:" ++ value) ->
  item !! "item_dir" = Some dir ->
  item !! "warc_file_base" = Some base ->
  fetch ("http://103.230.141.2/sketch/" ++ value) = Some body ->
  let o := WgetArgs.realize WGET_LUA USER_AGENT bind_address fetch item in
  WgetArgs.fetched o = ["http://103.230.141.2/sketch/" ++ value] /\
  WgetArgs.item_after o
    = <["item_value" := value]> (<["item_type" := "disco"]> item) /\
  (exists args front back,
     WgetArgs.returned o = inr args /\
     args = (front ++ "--warc-file" :: (dir ++ "/" ++ base)%string :: back)%list /\
     (dir ++ "/" ++ base) ++ ".warc.gz" = input_filename (mkItem dir base) /\
     length args = 37 + (if bind_address is Some _ then 2 else 0) /\
     (forall address, bind_address = Some address ->
        exists front', args = (front' ++ ["--bind-address"; address])%list)).
Proof.
  intros Hname Hdir Hbase Hfetch o. subst o.
  unfold WgetArgs.realize. rewrite Hname.
  assert (WgetArgs.split_colon ("disco:" ++ value) = ("disco", Some value))
    as -> by (by apply split_colon_some).
  rewrite decide_True by done. cbv zeta. rewrite Hfetch.
  assert (forall k, k <> "item_type" -> k <> "item_value" ->
            (<["item_value" := value]> (<["item_type" := "disco"]> item)) !! k
            = item !! k) as Hkeep.
  { intros k H1 H2. by rewrite !lookup_insert_ne. }
  assert ((dir ++ "/" ++ base) ++ ".warc.gz" = input_filename (mkItem dir base))
    as Hinput.
  { unfold input_filename. cbn [item_dir warc_file_base].
    by rewrite !string_app_assoc. }
  destruct bind_address as [address|];
    cbn [WgetArgs.fetched WgetArgs.item_after WgetArgs.returned];
    (split; [done|]); (split; [done|]);
    unfold WgetArgs.wget_args;
    cbn [Seesaw.realize realize_arg interpolate app];
    rewrite !Hkeep by done; rewrite Hname, Hdir, Hbase.
  - rewrite !string_app_nil_r.
    match goal with
    | |- exists args front back, inr ?l = inr args /\ _ =>
        exists l, (take 29 l), (drop 31 l)
    end.
    split; [reflexivity|]. split; [reflexivity|]. split; [exact Hinput|].
    split; [reflexivity|].
    intros address' [= <-].
    match goal with |- exists front', ?l = _ => by exists (take 37 l) end.
  - rewrite !string_app_nil_r.
    match goal with
    | |- exists args front back, inr ?l = inr args /\ _ =>
        exists l, (take 29 l), (drop 31 l)
    end.
    split; [reflexivity|]. split; [reflexivity|]. split; [exact Hinput|].
    split; [reflexivity|].
    intros address' [=].
Qed.

Lemma X17_disco_item_arguments_witness :
  let o := WgetArgs.realize "wget-lua" "agent" None (fun _ => Some "")
             {[ "item_name" := "disco:abc"; "item_dir" := "data/h";
                "warc_file_base" := "sketch-h-t" ]} in
  WgetArgs.fetched o = ["http://103.230.141.2/sketch/abc"] /\
  exists args, WgetArgs.returned o = inr args /\ length args = 37.
Proof.
  destruct (X17_disco_item_arguments "wget-lua" "agent" None (fun _ => Some "")
              {[ "item_name" := "disco:abc"; "item_dir" := "data/h";
                 "warc_file_base" := "sketch-h-t" ]}
              "abc" "data/h" "sketch-h-t" "")
    as (Hf & _ & args & _ & _ & Hr & _ & _ & Hlen & _);
    [reflexivity|reflexivity|reflexivity|reflexivity|].
  split; [exact Hf|]. exists args. split; [exact Hr|exact Hlen].
Defined.

(** ** PrepareDirectories and MoveFiles: the files of an item *)

Import Files.

Ltac run_io :=
  unfold run, PrepareDirectories.process, PrepareDirectories.get,
    MoveFiles.process, mbind, io_bind, mret, io_ret, lift, call, raise;
  cbn [interpolate].

(** The cases of what the file system answers to the calls, in the
    order of the calls. *)
Ltac by_file_system raises :=
  unfold finish;
  repeat (cbn [perform app fst snd];
          match goal with
          | |- context [raises ?calls ?c] => destruct (raises calls c)
          end);
  cbn [perform app fst snd]; try reflexivity.

Lemma move_files_present (raises : file_system) (exists_ : string -> bool)
    (item : item_dict) (dir base data_dir : string) :
  item !! "item_dir" = Some dir ->
  item !! "warc_file_base" = Some base ->
  item !! "data_dir" = Some data_dir ->
  run (MoveFiles.process raises exists_ item) =
  if exists_ (dir ++ "/" ++ base ++ ".warc")
  then ([], inl (Exception MoveFiles.zlib))
  else finish tt
         (perform raises
            [rename (dir ++ "/" ++ base ++ ".warc.gz")
               (data_dir ++ "/" ++ base ++ ".warc.gz");
             rename (dir ++ "/" ++ base ++ "_data.txt")
               (data_dir ++ "/" ++ base ++ "_data.txt");
             rmtree dir] []).
Proof.
  intros Hdir Hbase Hdata. run_io. rewrite Hdir, Hbase, Hdata.
  rewrite !string_app_nil_r.
  destruct (exists_ _); [done|].
  by_file_system raises.
Qed.

(** X18: whatever the file system answers, PrepareDirectories makes its
    calls in this order and up to the first that raises: the removal of
    the item's directory when there is one, the making of that directory,
    and the creation of the two files in it; it returns when none of them
    raises.  MoveFiles, run on the item that PrepareDirectories leaves
    and without an uncompressed WARC file in the way, makes its calls in
    this order and up to the first that raises: the renaming of exactly
    the two files that PrepareDirectories created, each to another name,
    into the data directory, and the removal of exactly the directory
    that PrepareDirectories made. *)
Theorem X18_move_files_moves_what_was_prepared
    (raises raises' : file_system)
    (warc_prefix now : string) (sha1 : string -> string)
    (isdir exists_ : string -> bool) (item : item_dict)
    (name data_dir : string) :
  item !! "item_name" = Some name ->
  item !! "data_dir" = Some data_dir ->
  let dir := data_dir ++ "/" ++ sha1 name in
  let base := warc_prefix ++ "-" ++ sha1 name ++ "-" ++ now in
  let warc := dir ++ "/" ++ base ++ ".warc.gz" in
  let data := dir ++ "/" ++ base ++ "_data.txt" in
  let warc' := data_dir ++ "/" ++ base ++ ".warc.gz" in
  let data' := data_dir ++ "/" ++ base ++ "_data.txt" in
  exists_ (dir ++ "/" ++ base ++ ".warc") = false ->
  exists item',
    run (PrepareDirectories.process raises warc_prefix sha1 now isdir item)
      = finish item'
          (perform raises
             ((if isdir dir then [rmtree dir] else []) ++
              [makedirs dir; create warc; create data])%list []) /\
    run (MoveFiles.process raises' exists_ item')
      = finish tt
          (perform raises' [rename warc warc'; rename data data'; rmtree dir] []) /\
    warc <> warc' /\ data <> data'.
Proof.
  intros Hname Hdata dir base warc data warc' data' Hplain.
  exists (<["warc_file_base" := base]> (<["item_dir" := dir]> item)).
  split.
  { run_io. rewrite Hname, Hdata. fold dir. fold base.
    rewrite lookup_insert_ne by done. rewrite !lookup_insert_eq.
    rewrite !string_app_nil_r. fold warc. fold data.
    destruct (isdir dir); by_file_system raises. }
  split.
  { rewrite (move_files_present raises' exists_ _ dir base data_dir).
    - by rewrite Hplain.
    - rewrite lookup_insert_ne by done. by rewrite lookup_insert_eq.
    - by rewrite lookup_insert_eq.
    - by rewrite !lookup_insert_ne. }
  assert (forall tail : string,
            dir ++ "/" ++ base ++ tail <> data_dir ++ "/" ++ base ++ tail) as Hne.
  { intros tail H. subst dir. rewrite !string_app_assoc in H.
    do 2 apply string_app_inv_head in H.
    apply (f_equal String.length) in H.
    rewrite !string_app_length in H. simpl in H. lia. }
  split; apply Hne.
Qed.

Lemma X18_move_files_moves_what_was_prepared_witness :
  exists item',
    run (PrepareDirectories.process willing "sketch" (fun _ => "0a1b")
           "20190622-010203" (fun _ => false)
           {[ "item_name" := "disco:abc"; "data_dir" := "data" ]})
      = ([makedirs "data/0a1b";
          create "data/0a1b/sketch-0a1b-20190622-010203.warc.gz";
          create "data/0a1b/sketch-0a1b-20190622-010203_data.txt"],
         inr item') /\
    run (MoveFiles.process
           (unwilling (rename "data/0a1b/sketch-0a1b-20190622-010203_data.txt"
                         "data/sketch-0a1b-20190622-010203_data.txt"))
           (fun _ => false) item')
      = ([rename "data/0a1b/sketch-0a1b-20190622-010203.warc.gz"
            "data/sketch-0a1b-20190622-010203.warc.gz"],
         inl (OSError (rename "data/0a1b/sketch-0a1b-20190622-010203_data.txt"
                         "data/sketch-0a1b-20190622-010203_data.txt"))).
Proof.
  destruct (X18_move_files_moves_what_was_prepared willing
              (unwilling (rename "data/0a1b/sketch-0a1b-20190622-010203_data.txt"
                            "data/sketch-0a1b-20190622-010203_data.txt"))
              "sketch" "20190622-010203"
              (fun _ => "0a1b") (fun _ => false) (fun _ => false)
              {[ "item_name" := "disco:abc"; "data_dir" := "data" ]}
              "disco:abc" "data")
    as (item' & Hprep & Hmove & _);
    [reflexivity|reflexivity|reflexivity|].
  exists item'. split; [exact Hprep|exact Hmove].
Defined.

(** MoveFiles on a file system that answers every call moves the two
    files, removes the directory and returns. *)
Example move_files_on_a_willing_file_system :
  run (MoveFiles.process willing (fun _ => false)
         {[ "item_dir" := "data/0a1b"; "warc_file_base" := "sketch-0a1b-t";
            "data_dir" := "data" ]})
  = ([rename "data/0a1b/sketch-0a1b-t.warc.gz" "data/sketch-0a1b-t.warc.gz";
      rename "data/0a1b/sketch-0a1b-t_data.txt" "data/sketch-0a1b-t_data.txt";
      rmtree "data/0a1b"],
     inr tt).
Proof. reflexivity. Qed.


(** The second renaming raises: the first has moved the WARC file, and
    the item's directory is not removed. *)
Example move_files_second_rename_raises :
  run (MoveFiles.process
         (unwilling (rename "data/0a1b/sketch-0a1b-t_data.txt"
                       "data/sketch-0a1b-t_data.txt"))
         (fun _ => false)
         {[ "item_dir" := "data/0a1b"; "warc_file_base" := "sketch-0a1b-t";
            "data_dir" := "data" ]})
  = ([rename "data/0a1b/sketch-0a1b-t.warc.gz" "data/sketch-0a1b-t.warc.gz"],
     inl (OSError (rename "data/0a1b/sketch-0a1b-t_data.txt"
                     "data/sketch-0a1b-t_data.txt"))).
Proof. reflexivity. Qed.

(** X20: of the two files of the Deduplicate task, MoveFiles never
    renames the one that the task writes, whatever the file system
    answers; when MoveFiles returns, it has renamed the one that the task
    reads into the data directory and removed the item's directory, in
    which the file that the task writes lies. *)
Theorem X20_deduplicated_file_is_not_moved
    (raises : file_system) (exists_ : string -> bool) (item : item_dict)
    (dir base data_dir : string) :
  item !! "item_dir" = Some dir ->
  item !! "warc_file_base" = Some base ->
  item !! "data_dir" = Some data_dir ->
  let r := run (MoveFiles.process raises exists_ item) in
  deduplicate_item item = Some (mkItem dir base) /\
  (forall dst, rename (output_filename (mkItem dir base)) dst ∉ r.1) /\
  (r.2 = inr tt ->
   rename (input_filename (mkItem dir base))
     (data_dir ++ "/" ++ base ++ ".warc.gz") ∈ r.1 /\
   rmtree dir ∈ r.1) /\
  output_filename (mkItem dir base)
    = dir ++ "/" ++ base ++ "-deduplicated.warc.gz".
Proof.
  intros Hdir Hbase Hdata r. subst r.
  split; [unfold deduplicate_item; by rewrite Hdir, Hbase|].
  rewrite (move_files_present raises exists_ item dir base data_dir) by done.
  unfold input_filename, output_filename. cbn [item_dir warc_file_base].
  assert (forall dst calls,
            calls ⊆ [rename (dir ++ "/" ++ base ++ ".warc.gz")
                       (data_dir ++ "/" ++ base ++ ".warc.gz");
                     rename (dir ++ "/" ++ base ++ "_data.txt")
                       (data_dir ++ "/" ++ base ++ "_data.txt");
                     rmtree dir] ->
            rename (dir ++ "/" ++ base ++ "-deduplicated.warc.gz") dst ∉ calls)
    as Hnot.
  { intros dst calls Hsub Hin. apply Hsub in Hin.
    apply elem_of_cons in Hin as [Hin|Hin].
    - injection Hin as H _. do 3 apply string_app_inv_head in H. discriminate H.
    - apply elem_of_cons in Hin as [Hin|Hin].
      + injection Hin as H _. do 3 apply string_app_inv_head in H.
        discriminate H.
      + apply list_elem_of_singleton in Hin. discriminate Hin. }
  split; [|split; [|done]].
  - intros dst. apply Hnot.
    destruct (exists_ _); [set_solver|].
    by_file_system raises; set_solver.
  - destruct (exists_ _); [done|].
    by_file_system raises; try done. intros _. set_solver.
Qed.

Lemma X20_deduplicated_file_is_not_moved_witness :
  let r := run (MoveFiles.process willing (fun _ => false)
                  {[ "item_dir" := "data/0a1b"; "warc_file_base" := "sketch-0a1b-t";
                     "data_dir" := "data" ]}) in
  (forall dst, rename "data/0a1b/sketch-0a1b-t-deduplicated.warc.gz" dst ∉ r.1) /\
  rename "data/0a1b/sketch-0a1b-t.warc.gz" "data/sketch-0a1b-t.warc.gz" ∈ r.1 /\
  rmtree "data/0a1b" ∈ r.1.
Proof.
  destruct (X20_deduplicated_file_is_not_moved willing (fun _ => false)
              {[ "item_dir" := "data/0a1b"; "warc_file_base" := "sketch-0a1b-t";
                 "data_dir" := "data" ]}
              "data/0a1b" "sketch-0a1b-t" "data")
    as (_ & Hnot & Hdone & _);
    [reflexivity|reflexivity|reflexivity|].
  split; [exact Hnot|]. apply Hdone. reflexivity.
Defined.
